(** * Fastboot-Kindle: the command-line front end of [fastboot.c]

    A shallow embedding of the argument scanner ([main]), of the [oem]
    command assembler ([do_oem_command]) and of the requirements parser
    ([setup_requirements], [setup_requirement_line], [strip]) of
    [src/fastboot.c], followed by the properties the specification
    states about them.

    Conventions of the embedding:
    - a C string is a [string] without NUL characters; a raw buffer is a
      [string] that may hold NUL and newline characters, and [cstr] reads
      the C string that starts at its first byte;
    - [unsigned], [int] and [unsigned long] values are [Z], with the
      conversions written out;
    - [exit], [die] and [usage] end the run: every function that can reach
      them returns an [Outcome] or a [Step];
    - what the process cannot decide by itself (the files, whether an
      allocation succeeds, the width of [unsigned long], the environment
      variable, the garbage in an uninitialised local) is read from an
      [Env] record. *)

From Stdlib Require Import String Ascii List ZArith Lia Bool.
Import ListNotations.

Open Scope string_scope.
Open Scope Z_scope.

(** ** The environment of a run *)

Record Env : Type := mkEnv {
  (** [open]/[lseek]/[read]: the bytes of a readable path, [None] when
      [open] fails. *)
  files : string -> option string;
  (** whether [malloc] of that many bytes returns a non-null pointer. *)
  malloc_ok : Z -> bool;
  (** size in bytes of a pointer to char. *)
  sizeof_ptr : Z;
  (** number of value bits of [unsigned long]. *)
  ulong_bits : Z;
  (** [getenv("KINDLE_SERIAL")]. *)
  KINDLE_SERIAL : option string;
  (** the indeterminate value [main]'s local [unsigned sz] starts with:
      the declaration has no initialiser. *)
  stack_sz : Z
}.

(** ** C strings *)

Module CStr.

Definition NUL : ascii := "000"%char.
Definition LF : ascii := "010"%char.

(** [isspace] in the C locale: HT, LF, VT, FF, CR and the space. *)
Definition isspace (c : ascii) : bool :=
  let n := N_of_ascii c in
  (((9 <=? n) && (n <=? 13)) || (n =? 32))%N.

(** The C string that starts at the first byte of a buffer: the bytes
    before the first NUL. *)
Fixpoint cstr (buf : string) : string :=
  match buf with
  | EmptyString => EmptyString
  | String c t => if Ascii.eqb c NUL then EmptyString else String c (cstr t)
  end.

(** The string that is one newline. *)
Definition nl : string := String LF EmptyString.

(** [strlen] as a C [int]/[size_t] value. *)
Definition strlen (s : string) : Z := Z.of_nat (String.length s).

(** [p + n] on a [char*]: the string that starts [n] bytes further. *)
Fixpoint advance (n : nat) (s : string) : string :=
  match n, s with
  | O, _ => s
  | S k, String _ t => advance k t
  | S _, EmptyString => EmptyString
  end.

(** [strcmp(a, b) == 0]. *)
Definition streq (a b : string) : bool := String.eqb a b.

(** [strncmp(s, lit, strlen(lit)) == 0]. *)
Definition starts_with (lit s : string) : bool := String.prefix lit s.

(** [x = strchr(s, c)] followed by [*x = 0] and [x + 1]: the string cut at
    the first [c], as (what [s] now reads, what [x + 1] reads); [None]
    when [strchr] returns the null pointer. *)
Fixpoint strchr (s : string) (c : ascii) : option (string * string) :=
  match s with
  | EmptyString => None
  | String a t =>
      if Ascii.eqb a c then Some (EmptyString, t)
      else match strchr t c with
           | Some (before, after) => Some (String a before, after)
           | None => None
           end
  end.

(** The first loop of [strip]: [s] moves forward over white space. *)
Fixpoint skip_spaces (s : string) : string :=
  match s with
  | EmptyString => EmptyString
  | String c t => if isspace c then skip_spaces t else s
  end.

(** The second loop of [strip]: from the last byte backwards, every
    white-space byte is overwritten with NUL until another byte is met. *)
Fixpoint chop_spaces (s : string) : string :=
  match s with
  | EmptyString => EmptyString
  | String c t =>
      match chop_spaces t with
      | EmptyString => if isspace c then EmptyString else String c EmptyString
      | t' => String c t'
      end
  end.

Definition strip (s : string) : string := chop_spaces (skip_spaces s).

(** Whether a byte occurs in a string, and how often. *)
Fixpoint contains (c : ascii) (s : string) : bool :=
  match s with
  | EmptyString => false
  | String a t => Ascii.eqb a c || contains c t
  end.

Fixpoint count_char (c : ascii) (s : string) : nat :=
  match s with
  | EmptyString => O
  | String a t => if Ascii.eqb a c then S (count_char c t) else count_char c t
  end.

(** A buffer that is empty or ends with a newline: it holds whole lines
    only. *)
Fixpoint whole_lines (buf : string) : bool :=
  match buf with
  | EmptyString => true
  | String c EmptyString => Ascii.eqb c LF
  | String _ t => whole_lines t
  end.

(** [strcat] into a [char[cap]] buffer that holds [buf]: [None] when the
    result and its NUL do not fit (the write runs past the array). *)
Definition strcat (cap : Z) (buf s : string) : option string :=
  let r := (buf ++ s)%string in
  if strlen r <? cap then Some r else None.

End CStr.

(** ** The operation queue *)

(** Modelled from the spec: the engine's queue and its [fb_queue_*]
    functions, declared in [fastboot.h] and defined outside the sources at
    hand. Each call appends one entry that records the call's arguments
    (section 3 of the specification: a tagged variant, append-only); the
    [getvar] and [setvar] entries keep the name of the function called. *)
Inductive QueuedOperation : Type :=
| Download (name : string) (data : string) (sz : Z)
| Flash (ptn : string) (sz : Z)
| Verify (ptn : string) (sz : Z)
| Erase (ptn : string)
| Check (ptn : string)
| GenericCommand (cmd : string) (msg : string)
| Display (var : string) (prettyname : string)
| SetVar (var : string) (value : string) (prettyname : string)
| Reboot
| Requirement (name : string) (invert : bool) (nvalue : Z) (values : list string).

Definition Queue : Type := list QueuedOperation.

Module Engine.

Definition enqueue (q : Queue) (op : QueuedOperation) : Queue :=
  (q ++ [op])%list.

Definition fb_queue_download q name data sz := enqueue q (Download name data sz).
Definition fb_queue_flash q ptn sz := enqueue q (Flash ptn sz).
Definition fb_queue_verify q ptn sz := enqueue q (Verify ptn sz).
Definition fb_queue_erase q ptn := enqueue q (Erase ptn).
Definition fb_queue_check q ptn := enqueue q (Check ptn).
Definition fb_queue_command q cmd msg := enqueue q (GenericCommand cmd msg).
Definition fb_queue_display q var pretty := enqueue q (Display var pretty).
Definition fb_queue_set q var value pretty := enqueue q (SetVar var value pretty).
Definition fb_queue_reboot q := enqueue q Reboot.
Definition fb_queue_require q name invert nvalue values :=
  enqueue q (Requirement name invert nvalue values).

End Engine.

(** ** How a run ends *)

Inductive Outcome (A : Type) : Type :=
| Done (a : A)              (** the function returned *)
| UsageExit                 (** [usage()]: the help text, then [exit(1)] *)
| Died (msg : string)       (** [die(fmt, ...)]: "error: msg", then [exit(1)] *)
| Undefined                 (** a write past the end of an array *)
| OutOfFuel.                (** the model's loop bound was too small *)

Arguments Done {A} a.
Arguments UsageExit {A}.
Arguments Died {A} msg.
Arguments Undefined {A}.
Arguments OutOfFuel {A}.

(** ** The requirements parser *)

Module Requirements.
Import CStr Engine.

Definition MAX_OPTIONS : nat := 32.

(** The loop that fills [val[1 ..]]: [cur] is [val[count - 1]] and [left]
    is [MAX_OPTIONS - count]. Each round cuts [cur] at its first '|'. The
    result lists [val[count0 - 1], ..., val[count - 1]] when the loop
    ends. *)
Fixpoint split_values (left : nat) (cur : string) : list string :=
  match left with
  | O => [cur]
  | S k =>
      match strchr cur "|"%char with
      | None => [cur]
      | Some (before, after) => before :: split_values k after
      end
  end.

(** The copy loop: [out[n] = strdup(strip(val[n]))], which returns -1 at
    the first [strdup] that fails. *)
Fixpoint dup_values (env : Env) (vals : list string) : option (list string) :=
  match vals with
  | [] => Some []
  | v :: rest =>
      let s := strip v in
      if malloc_ok env (strlen s + 1) then
        match dup_values env rest with
        | Some out => Some (s :: out)
        | None => None
        end
      else None
  end.

(** The keyword test at the head of [setup_requirement_line]: [name]
    moved past the keyword, and [invert]. *)
Definition read_keyword (line : string) : string * bool :=
  if starts_with "reject " line then (advance 7 line, true)
  else if starts_with "require " line then (advance 8 line, false)
  else (line, false).

(** [setup_requirement_line(name)]: the returned [int] and the queue. *)
Definition setup_requirement_line (env : Env) (line : string) (q : Queue)
  : Z * Queue :=
  let '(name, invert) := read_keyword line in
  match strchr name "="%char with
  | None => (0, q)
  | Some (name, val0) =>
      let val := split_values (MAX_OPTIONS - 1) val0 in
      let count := Z.of_nat (List.length val) in
      let name := strip name in
      let val := List.map strip val in
      let name := strip name in
      (* [if (name == 0) return -1;]: [strip] returns its argument moved
         forward, never the null pointer, so the test is always false *)
      let name := if streq name "board" then "product" else name in
      if malloc_ok env (sizeof_ptr env * count) then
        match dup_values env val with
        | Some out => (0, fb_queue_require q name invert count out)
        | None => (-1, q)
        end
      else (-1, q)
  end.

(** The loop of [setup_requirements(data, sz)] over the [sz] bytes not yet
    read; [line] holds the bytes between [data] and [s]. At a newline the
    byte becomes NUL and the C string at [data] is parsed. *)
Fixpoint scan_lines (env : Env) (rest : string) (line : string) (q : Queue)
  : Outcome Queue :=
  match rest with
  | EmptyString => Done q
  | String c t =>
      if Ascii.eqb c LF then
        let '(r, q') := setup_requirement_line env (cstr line) q in
        if r =? 0 then scan_lines env t EmptyString q'
        else Died "out of memory"
      else scan_lines env t (line ++ String c EmptyString)%string q
  end.

Definition setup_requirements (env : Env) (data : string) (q : Queue)
  : Outcome Queue :=
  scan_lines env data EmptyString q.

End Requirements.

(** ** [strtoul] with base 0 *)

Module Strtoul.
Import CStr.

Definition ULONG_MAX (env : Env) : Z := 2 ^ ulong_bits env - 1.

(** The value of a character as a digit: '0'-'9', then the letters of
    either case from 10 on. *)
Definition digit_val (c : ascii) : option Z :=
  let n := Z.of_N (N_of_ascii c) in
  if (48 <=? n) && (n <=? 57) then Some (n - 48)
  else if (97 <=? n) && (n <=? 122) then Some (n - 87)
  else if (65 <=? n) && (n <=? 90) then Some (n - 55)
  else None.

Definition is_digit (base : Z) (c : ascii) : bool :=
  match digit_val c with
  | Some d => d <? base
  | None => false
  end.

(** The digits of the subject sequence, most significant first: the
    value so far, whether it has left the range of [unsigned long], and
    the string at the first character that is no digit of the base. *)
Fixpoint scan_digits (base max : Z) (s : string) (acc : Z) (ovf : bool)
  : Z * bool * string :=
  match s with
  | EmptyString => (acc, ovf, s)
  | String c t =>
      match digit_val c with
      | Some d =>
          if d <? base then
            let acc' := acc * base + d in
            if ovf || (max <? acc') then scan_digits base max t acc true
            else scan_digits base max t acc' false
          else (acc, ovf, s)
      | None => (acc, ovf, s)
      end
  end.

(** The optional sign. *)
Definition read_sign (s : string) : bool * string :=
  match s with
  | String c t =>
      if Ascii.eqb c "-"%char then (true, t)
      else if Ascii.eqb c "+"%char then (false, t)
      else (false, s)
  | EmptyString => (false, s)
  end.

(** Base 0: "0x" or "0X" before a hexadecimal digit selects base 16 and
    is skipped; another leading '0' selects base 8 (and is its first
    digit); anything else is read in base 10. *)
Definition read_base (s : string) : Z * string :=
  match s with
  | String z t =>
      if Ascii.eqb z "0"%char then
        match t with
        | String x (String h u) =>
            if (Ascii.eqb x "x"%char || Ascii.eqb x "X"%char) && is_digit 16 h
            then (16, String h u)
            else (8, s)
        | _ => (8, s)
        end
      else (10, s)
  | EmptyString => (10, s)
  end.

Definition starts_with_digit (base : Z) (s : string) : bool :=
  match s with
  | String c _ => is_digit base c
  | EmptyString => false
  end.

(** [val = strtoul(nptr, &endptr, 0)] as ([val], the string at [endptr]).
    White space is skipped, then a sign, then the base prefix; without a
    digit nothing is converted: 0 is returned and [endptr] is [nptr].
    A value out of range gives [ULONG_MAX]; a minus sign negates the value
    in [unsigned long]. *)
Definition strtoul (env : Env) (nptr : string) : Z * string :=
  let '(neg, s2) := read_sign (skip_spaces nptr) in
  let '(base, s3) := read_base s2 in
  if starts_with_digit base s3 then
    let '(v, ovf, rest) := scan_digits base (ULONG_MAX env) s3 0 false in
    ((if ovf then ULONG_MAX env
      else if neg then (- v) mod 2 ^ ulong_bits env
      else v), rest)
  else (0, nptr).

End Strtoul.

(** ** [load_file] *)

Module Loader.
Import CStr.

(** [int sz = lseek(fd, 0, SEEK_END)]: the file's length in a 32-bit
    [int]. *)
Definition to_int (n : Z) : Z := (n + 2 ^ 31) mod 2 ^ 32 - 2 ^ 31.

(** [load_file(fn, &sz)]: the bytes read and the size stored, or [None]
    for the null pointer ([open] fails, the size is negative, or [malloc]
    fails). *)
Definition load_file (env : Env) (fn : string) : option (string * Z) :=
  match files env fn with
  | None => None
  | Some bytes =>
      let sz := to_int (strlen bytes) in
      if sz <? 0 then None
      else if malloc_ok env sz
      then Some (String.substring 0 (Z.to_nat sz) bytes, sz)
      else None
  end.

End Loader.

(** ** The [oem] command *)

Module Oem.
Import CStr Engine.

(** The [while(1)] loop of [do_oem_command] over [char command[256]]:
    each token is appended, and a space after it unless it was the last.
    [None] is a write past the end of [command]. *)
Fixpoint oem_loop (command : string) (argv : list string) : option string :=
  match argv with
  | [] => None
  | a :: rest =>
      match strcat 256 command a with
      | None => None
      | Some command =>
          match rest with
          | [] => Some command
          | _ :: _ =>
              match strcat 256 command " " with
              | None => None
              | Some command => oem_loop command rest
              end
          end
      end
  end.

(** [do_oem_command(argc, argv)], where [argv[0]] is the token "oem": the
    returned [int] and the queue. *)
Definition do_oem_command (argv : list string) (q : Queue)
  : option (Z * Queue) :=
  if Z.of_nat (List.length argv) <=? 1 then Some (0, q)
  else
    match oem_loop EmptyString argv with
    | Some command => Some (0, fb_queue_command q command "")
    | None => None
    end.

End Oem.

(** ** The argument scanner *)

Module Scanner.
Import CStr Engine.

(** The variables the loop of [main] reads and writes: the tokens not yet
    consumed ([argc] is their number), the two device filters (file-scope
    statics), the local [sz] and the queue. *)
Record State : Type := mkState {
  argv : list string;
  serial : option string;
  vendor_id : Z;
  sz : Z;
  queue : Queue
}.

Definition set_argv (st : State) (a : list string) : State :=
  mkState a (serial st) (vendor_id st) (sz st) (queue st).
Definition set_serial (st : State) (s : option string) : State :=
  mkState (argv st) s (vendor_id st) (sz st) (queue st).
Definition set_vendor_id (st : State) (v : Z) : State :=
  mkState (argv st) (serial st) v (sz st) (queue st).
Definition set_sz (st : State) (n : Z) : State :=
  mkState (argv st) (serial st) (vendor_id st) n (queue st).
Definition set_queue (st : State) (q : Queue) : State :=
  mkState (argv st) (serial st) (vendor_id st) (sz st) q.

(** What a finished [main] has done before it returns 0. *)
Inductive Run : Type :=
| DevicesListed                 (** [list_devices()] *)
| QueueExecuted (st : State).   (** [fb_execute_queue] on the device that
                                    [open_device] waited for *)

Inductive Step : Type :=
| Next (st : State)
| Halt (o : Outcome Run).

Definition argc (st : State) : Z := Z.of_nat (List.length (argv st)).

(** [argv[i]]; the empty string stands for the null pointer at
    [argv[argc]], which the code reads but never uses. *)
Definition arg (i : nat) (st : State) : string := nth i (argv st) "".

(** The macro [skip(n)]. *)
Definition skip (n : nat) (st : State) : State :=
  set_argv st (skipn n (argv st)).

(** The macro [require(n)]: [usage()] unless [n] tokens are left. *)
Definition require (n : Z) (st : State) (k : Step) : Step :=
  if argc st <? n then Halt UsageExit else k.

(** The common tail of the [verify], [flash] and [boot] branches: with a
    file name the file is loaded and queued as a download under [slot],
    then the command itself is queued by [primary], which gets the current
    value of [sz]. *)
Definition with_optional_file (env : Env) (st : State)
    (fname : option string) (slot : string)
    (primary : Queue -> Z -> Queue) : Step :=
  match fname with
  | Some fn =>
      match Loader.load_file env fn with
      | None => Halt (Died ("cannot load '" ++ fn ++ "'" ++ nl))
      | Some (data, n) =>
          let st := set_sz st n in
          let st := set_queue st (fb_queue_download (queue st) slot data n) in
          Next (set_queue st (primary (queue st) (sz st)))
      end
  | None => Next (set_queue st (primary (queue st) (sz st)))
  end.

(** One round of the [while (argc > 0)] loop of [main]: the chain of
    [strcmp] tests on [*argv], in the order of the source. *)
Definition step (env : Env) (st : State) : Step :=
  let cmd := arg 0 st in
  if streq cmd "-s" then
    require 2 st
      (Next (skip 2 (set_serial st (Some (arg 1 st)))))
  else if streq cmd "-i" then
    require 2 st
      (let '(val, endptr) := Strtoul.strtoul env (arg 1 st) in
       if negb (streq endptr "") || negb (Z.land val (Z.lnot 65535) =? 0)
       then Halt (Died ("invalid vendor id '" ++ arg 1 st ++ "'"))
       else Next (skip 2 (set_vendor_id st (val mod 2 ^ 16))))
  else if streq cmd "getvar" then
    require 2 st
      (Next (skip 2
         (set_queue st (fb_queue_display (queue st) (arg 1 st) (arg 1 st)))))
  else if streq cmd "setvar" then
    require 3 st
      (Next (skip 3
         (set_queue st
            (fb_queue_set (queue st) (arg 1 st) (arg 2 st) (arg 1 st)))))
  else if streq cmd "download" then
    require 2 st
      (if 1 <? argc st then
         let fname := arg 1 st in
         let st := skip 2 st in
         match Loader.load_file env fname with
         | None => Halt (Died ("cannot load '" ++ fname ++ "'" ++ nl))
         | Some (data, n) =>
             let st := set_sz st n in
             Next (set_queue st (fb_queue_download (queue st) "data" data n))
         end
       else Halt (Died "cannot determine image filename"))
  else if streq cmd "verify" then
    let pname := arg 1 st in
    require 2 st
      (if 2 <? argc st
       then with_optional_file env (skip 3 st) (Some (arg 2 st)) pname
              (fun q n => fb_queue_verify q pname n)
       else with_optional_file env (skip 2 st) None pname
              (fun q n => fb_queue_verify q pname n))
  else if streq cmd "flash" then
    let pname := arg 1 st in
    require 2 st
      (if 2 <? argc st
       then with_optional_file env (skip 3 st) (Some (arg 2 st)) pname
              (fun q n => fb_queue_flash q pname n)
       else with_optional_file env (skip 2 st) None pname
              (fun q n => fb_queue_flash q pname n))
  else if streq cmd "eraseall" then
    Next (skip 1
      (set_queue st
         (fb_queue_command (queue st) "eraseall" "wiping the flash memory")))
  else if streq cmd "erase" then
    require 2 st
      (Next (skip 2 (set_queue st (fb_queue_erase (queue st) (arg 1 st)))))
  else if streq cmd "check" then
    require 2 st
      (Next (skip 2 (set_queue st (fb_queue_check (queue st) (arg 1 st)))))
  else if streq cmd "boot" then
    require 1 st
      (if 1 <? argc st
       then with_optional_file env (skip 2 st) (Some (arg 1 st)) "boot"
              (fun q _ => fb_queue_command q "boot" "booting")
       else with_optional_file env (skip 1 st) None "boot"
              (fun q _ => fb_queue_command q "boot" "booting"))
  else if streq cmd "continue" then
    Next (skip 1
      (set_queue st (fb_queue_command (queue st) "continue" "resuming boot")))
  else if streq cmd "oem" then
    match Oem.do_oem_command (argv st) (queue st) with
    | Some (r, q) =>
        (* [argc = do_oem_command(argc, argv)]: [r] tokens are left *)
        Next (set_queue (set_argv st (firstn (Z.to_nat r) (argv st))) q)
    | None => Halt Undefined
    end
  else if streq cmd "reboot" then
    Next (skip 1 (set_queue st (fb_queue_reboot (queue st))))
  else if streq cmd "powerdown" then
    Next (skip 1
      (set_queue st (fb_queue_command (queue st) "powerdown" "shutting down")))
  else if streq cmd "pass" then
    Next (skip 1
      (set_queue st (fb_queue_command (queue st) "pass" "turning on led")))
  else if streq cmd "fail" then
    Next (skip 1
      (set_queue st (fb_queue_command (queue st) "fail" "turning on led")))
  else Halt UsageExit.

(** The [while (argc > 0)] loop and what follows it: [wants_reboot] and
    [wants_reboot_bootloader] are never set, so the queue goes to
    [fb_execute_queue] as the loop left it. Every round consumes a token,
    so [fuel] rounds are enough when [fuel] is the number of tokens. *)
Fixpoint main_loop (env : Env) (fuel : nat) (st : State) : Outcome Run :=
  match argv st with
  | [] => Done (QueueExecuted st)
  | _ :: _ =>
      match fuel with
      | O => OutOfFuel
      | S k =>
          match step env st with
          | Next st' => main_loop env k st'
          | Halt o => o
          end
      end
  end.

(** The state at the head of the loop. *)
Definition initial (env : Env) (args : list string) : State :=
  mkState args (KINDLE_SERIAL env) 0 (stack_sz env) [].

(** [main(argc, argv)] on the full argument vector, program name
    included. *)
Definition main (env : Env) (argv0 : list string) : Outcome Run :=
  match argv0 with
  | [] => Undefined
  | _ :: args =>
      match args with
      | [] => UsageExit
      | first :: _ =>
          if streq first "devices" then Done DevicesListed
          else main_loop env (List.length args) (initial env args)
      end
  end.

(** The exit status of the process. *)
Definition exit_status (o : Outcome Run) : option Z :=
  match o with
  | Done _ => Some 0
  | UsageExit => Some 1
  | Died _ => Some 1
  | Undefined => None
  | OutOfFuel => None
  end.

End Scanner.

(** ** The command table and the reachable states *)

Module Table.
Import CStr Scanner.

(** The [n] of the [require(n)] in the branch of each token the chain of
    [main] knows (1 where the branch has no [require]: the token itself);
    [None] for a token that falls through to the final [usage()]. *)
Definition required_tokens (cmd : string) : option Z :=
  if streq cmd "-s" then Some 2
  else if streq cmd "-i" then Some 2
  else if streq cmd "getvar" then Some 2
  else if streq cmd "setvar" then Some 3
  else if streq cmd "download" then Some 2
  else if streq cmd "verify" then Some 2
  else if streq cmd "flash" then Some 2
  else if streq cmd "eraseall" then Some 1
  else if streq cmd "erase" then Some 2
  else if streq cmd "check" then Some 2
  else if streq cmd "boot" then Some 1
  else if streq cmd "continue" then Some 1
  else if streq cmd "oem" then Some 1
  else if streq cmd "reboot" then Some 1
  else if streq cmd "powerdown" then Some 1
  else if streq cmd "pass" then Some 1
  else if streq cmd "fail" then Some 1
  else None.

(** The token at the head of the loop is no known command, or fewer
    tokens are left than its branch requires. *)
Definition bad_head (st : State) : bool :=
  match argv st with
  | [] => false
  | cmd :: _ =>
      match required_tokens cmd with
      | None => true
      | Some n => argc st <? n
      end
  end.

(** The states the loop of [main] passes through from a given one. *)
Inductive reaches (env : Env) : State -> State -> Prop :=
| reaches_here : forall st, reaches env st st
| reaches_next : forall st st' st'',
    argv st <> [] -> step env st = Next st' -> reaches env st' st'' ->
    reaches env st st''.

End Table.

(** ** The words of the specification *)

Module SpecWords.
Import CStr Strtoul.

(** "An unsigned integer literal (decimal or 0x-prefixed)": a non-empty
    run of decimal digits, or "0x" (either case) before a non-empty run
    of hexadecimal digits, with its value. *)
Fixpoint all_digits (base : Z) (s : string) : bool :=
  match s with
  | EmptyString => true
  | String c t => is_digit base c && all_digits base t
  end.

Fixpoint digits_value (base : Z) (s : string) (acc : Z) : Z :=
  match s with
  | EmptyString => acc
  | String c t =>
      match digit_val c with
      | Some d => digits_value base t (acc * base + d)
      | None => acc
      end
  end.

Definition is_x (c : ascii) : bool :=
  Ascii.eqb c "x"%char || Ascii.eqb c "X"%char.

Definition uint_literal (s : string) : option Z :=
  match s with
  | EmptyString => None
  | String z t =>
      match t with
      | String x (String h u) =>
          if Ascii.eqb z "0"%char && is_x x then
            if all_digits 16 (String h u)
            then Some (digits_value 16 (String h u) 0) else None
          else if all_digits 10 s then Some (digits_value 10 s 0) else None
      | _ => if all_digits 10 s then Some (digits_value 10 s 0) else None
      end
  end.

(** A '0' before another character that is not the 'x' of a hexadecimal
    prefix: C reads such a literal in base 8. *)
Definition leading_zero (s : string) : bool :=
  match s with
  | String z (String c _) => Ascii.eqb z "0"%char && negb (is_x c)
  | _ => false
  end.

End SpecWords.

(** ** Sample environments *)

Module Samples.
Import CStr.

(** Every allocation succeeds; 64-bit pointers and [unsigned long]; one
    readable file, "img.bin", of three bytes; [sz] starts as 77. *)
Definition plain_env : Env :=
  mkEnv (fun fn => if streq fn "img.bin" then Some "abc" else None)
        (fun _ => true) 8 64 None 77.




(** A line whose value part holds forty '|'. *)
Definition forty_bars : string :=
  "v=" ++ String.concat "|" (List.repeat "a" 41).

End Samples.

(** ** Device matching *)

Module Usb.
Import CStr.

(** The fields of [usb_ifc_info] that [fastboot.c] reads; the struct is
    declared in a header outside the sources at hand. *)
Record usb_ifc_info : Type := mk_ifc {
  dev_vendor : Z;
  ifc_class : Z;
  ifc_subclass : Z;
  ifc_protocol : Z;
  writable : Z;
  serial_number : string
}.

(** [match_fastboot(info)], with the two file-scope filters it reads as
    arguments: 0 for a match, -1 otherwise. *)
Definition match_fastboot (serial : option string) (vendor_id : Z)
    (info : usb_ifc_info) : Z :=
  if negb (negb (vendor_id =? 0) && (dev_vendor info =? vendor_id))
     && negb (dev_vendor info =? 0x1949)
  then -1
  else if negb (ifc_class info =? 0xff) then -1
  else if negb (ifc_subclass info =? 0x42) then -1
  else if negb (ifc_protocol info =? 0x03) then -1
  else
    match serial with
    | Some s => if negb (streq s (serial_number info)) then -1 else 0
    | None => 0
    end.

Definition TAB : ascii := "009"%char.

(** [list_devices_callback(info)]: the line it prints, if any, and the
    [int] it returns. *)
Definition list_devices_callback (serial : option string) (vendor_id : Z)
    (info : usb_ifc_info) : option string * Z :=
  if match_fastboot serial vendor_id info =? 0 then
    let name := serial_number info in
    let name := if writable info =? 0 then "no permissions" else name in
    let name := match name with
                | EmptyString => "????????????"
                | String _ _ => name
                end in
    (Some (name ++ String TAB "fastboot" ++ nl), -1)
  else (None, -1).

End Usb.

(** ** Predicates used to state invariants *)

Module Shape.
Import CStr.

(** A string of white space only. *)
Fixpoint all_space (s : string) : bool :=
  match s with
  | EmptyString => true
  | String c t => isspace c && all_space t
  end.


(** A requirement record as the parser builds it: the count is the
    number of values and lies between 1 and 32, the name is stripped and
    is not "board", every value is stripped. *)
Definition record_ok (op : QueuedOperation) : bool :=
  match op with
  | Requirement name _ n values =>
      (n =? Z.of_nat (List.length values))
      && (1 <=? n) && (n <=? 32)
      && negb (streq name "board")
      && streq (strip name) name
      && forallb (fun v => streq (strip v) v) values
  | _ => false
  end.

(** The size of the last download of a queue, [cur] when it has none. *)
Fixpoint last_size (cur : Z) (q : Queue) : Z :=
  match q with
  | [] => cur
  | Download _ _ n :: r => last_size n r
  | _ :: r => last_size cur r
  end.

(** Every download of the queue carries the length of its data, and
    every flash and verify carries the size of the download nearest
    before it, [cur] when there is none. *)
Fixpoint sizes_follow (cur : Z) (q : Queue) : bool :=
  match q with
  | [] => true
  | Download _ data n :: r => (n =? strlen data) && sizes_follow n r
  | Flash _ n :: r => (n =? cur) && sizes_follow cur r
  | Verify _ n :: r => (n =? cur) && sizes_follow cur r
  | _ :: r => sizes_follow cur r
  end.


(** Running a second parse on the queue a first one returned. *)
Definition and_then (o : Outcome Queue) (k : Queue -> Outcome Queue)
  : Outcome Queue :=
  match o with
  | Done q => k q
  | UsageExit => UsageExit
  | Died msg => Died msg
  | Undefined => Undefined
  | OutOfFuel => OutOfFuel
  end.

End Shape.

(** * Properties *)

(** ** Strings *)

Section StringFacts.
Import CStr.

Lemma contains_cstr : forall c s,
  contains c s = false -> contains c (cstr s) = false.
Proof.
  induction s as [|a t IH]; simpl; intros H; [reflexivity|].
  apply orb_false_iff in H as [Ha Ht].
  destruct (Ascii.eqb a NUL); simpl; [reflexivity|].
  now rewrite Ha, IH.
Qed.

Lemma contains_advance : forall c n s,
  contains c s = false -> contains c (advance n s) = false.
Proof.
  induction n as [|n IH]; intros [|a t] H; simpl; auto.
  simpl in H. apply orb_false_iff in H as [_ Ht]. now apply IH.
Qed.

Lemma strchr_none : forall c s,
  contains c s = false -> strchr s c = None.
Proof.
  induction s as [|a t IH]; simpl; intros H; [reflexivity|].
  apply orb_false_iff in H as [Ha Ht].
  now rewrite Ha, IH.
Qed.

Lemma strchr_some : forall c s a b,
  strchr s c = Some (a, b) ->
  s = (a ++ String c b)%string /\ contains c a = false.
Proof.
  induction s as [|x t IH]; simpl; intros a b H; [discriminate|].
  destruct (Ascii.eqb x c) eqn:E.
  - apply Ascii.eqb_eq in E. inversion H; subst. now split.
  - destruct (strchr t c) as [[a' b']|]; [|discriminate].
    inversion H; subst. destruct (IH a' b eq_refl) as [-> Hc].
    split; [reflexivity|]. simpl. now rewrite E.
Qed.

Lemma strchr_none_inv : forall c s,
  strchr s c = None -> contains c s = false.
Proof.
  induction s as [|x t IH]; simpl; intros H; [reflexivity|].
  destruct (Ascii.eqb x c); [discriminate|].
  destruct (strchr t c) as [[a b]|]; [discriminate|]. now apply IH.
Qed.

Lemma count_char_app : forall c a b,
  count_char c (a ++ b) = (count_char c a + count_char c b)%nat.
Proof.
  induction a as [|x t IH]; simpl; intros b; [reflexivity|].
  destruct (Ascii.eqb x c); rewrite IH; reflexivity.
Qed.

Lemma count_char_absent : forall c s,
  contains c s = false -> count_char c s = O.
Proof.
  induction s as [|x t IH]; simpl; intros H; [reflexivity|].
  apply orb_false_iff in H as [Hx Ht]. rewrite Hx. now apply IH.
Qed.

Lemma string_app_assoc : forall a b c : string,
  ((a ++ b) ++ c = a ++ (b ++ c))%string.
Proof.
  induction a as [|x t IH]; simpl; intros; [reflexivity|]. now rewrite IH.
Qed.

(** [strip] leaves a string it has produced as it is. *)

Lemma chop_spaces_idem : forall s, chop_spaces (chop_spaces s) = chop_spaces s.
Proof.
  induction s as [|c t IH]; simpl; [reflexivity|].
  destruct (chop_spaces t) as [|d u] eqn:E.
  - destruct (isspace c) eqn:Hc; simpl; [reflexivity|]. now rewrite Hc.
  - change (chop_spaces (String c (String d u)) = String c (String d u)).
    cbn [chop_spaces] in *. now rewrite IH.
Qed.

Lemma chop_spaces_head : forall c t,
  isspace c = false -> exists u, chop_spaces (String c t) = String c u.
Proof.
  intros c t Hc. simpl. destruct (chop_spaces t).
  - rewrite Hc. now exists EmptyString.
  - eexists; reflexivity.
Qed.

Lemma skip_spaces_head : forall s,
  skip_spaces s = EmptyString \/
  exists c t, skip_spaces s = String c t /\ isspace c = false.
Proof.
  induction s as [|c t IH]; simpl; [now left|].
  destruct (isspace c) eqn:Hc; [exact IH|].
  right. now exists c, t.
Qed.

Lemma strip_idem : forall s, strip (strip s) = strip s.
Proof.
  intros s. unfold strip.
  destruct (skip_spaces_head s) as [->|(c & t & -> & Hc)]; [reflexivity|].
  destruct (chop_spaces_head c t Hc) as [u Hu].
  rewrite Hu. cbn [skip_spaces]. rewrite Hc, <- Hu.
  apply chop_spaces_idem.
Qed.

Lemma map_strip_idem : forall l, List.map strip (List.map strip l) = List.map strip l.
Proof.
  induction l as [|x l IH]; simpl; [reflexivity|].
  now rewrite strip_idem, IH.
Qed.

(** [strip] removes white space only. *)

Lemma count_char_skip_spaces : forall c s,
  isspace c = false -> count_char c (skip_spaces s) = count_char c s.
Proof.
  intros c s Hc. induction s as [|x t IH]; simpl; [reflexivity|].
  destruct (isspace x) eqn:Hx; [|reflexivity].
  rewrite IH. destruct (Ascii.eqb x c) eqn:E; [|reflexivity].
  apply Ascii.eqb_eq in E. congruence.
Qed.

Lemma count_char_chop_spaces : forall c s,
  isspace c = false -> count_char c (chop_spaces s) = count_char c s.
Proof.
  intros c s Hc. induction s as [|x t IH]; simpl; [reflexivity|].
  destruct (chop_spaces t) as [|d u] eqn:E.
  - simpl in IH. destruct (isspace x) eqn:Hx; simpl.
    + rewrite <- IH. destruct (Ascii.eqb x c) eqn:Ex; [|reflexivity].
      apply Ascii.eqb_eq in Ex. congruence.
    + rewrite <- IH. reflexivity.
  - cbn [count_char] in *. now rewrite IH.
Qed.

Lemma count_char_strip : forall c s,
  isspace c = false -> count_char c (strip s) = count_char c s.
Proof.
  intros c s Hc. unfold strip.
  now rewrite count_char_chop_spaces, count_char_skip_spaces.
Qed.

End StringFacts.

(** ** The requirements parser *)

Section RequirementFacts.
Import CStr Engine Requirements.

Variable env : Env.

Lemma read_keyword_absent : forall c line,
  contains c line = false -> contains c (fst (read_keyword line)) = false.
Proof.
  intros c line H. unfold read_keyword.
  destruct (starts_with "reject " line); [now apply contains_advance|].
  destruct (starts_with "require " line); [now apply contains_advance|].
  exact H.
Qed.

(** A line without '=' returns 0 at once and queues nothing. *)
Lemma line_without_equals : forall line q,
  contains "="%char line = false ->
  setup_requirement_line env line q = (0, q).
Proof.
  intros line q H. unfold setup_requirement_line.
  pose proof (read_keyword_absent _ _ H) as Hk.
  destruct (read_keyword line) as [name invert]; simpl in Hk.
  now rewrite (strchr_none _ _ Hk).
Qed.

(** Bytes without a newline only move [s] forward. *)
Lemma scan_lines_no_newline : forall a b line q,
  contains LF a = false ->
  scan_lines env (a ++ b) line q = scan_lines env b (line ++ a) q.
Proof.
  induction a as [|c t IH]; simpl; intros b line q H.
  - replace (line ++ "")%string with line; [reflexivity|].
    clear. induction line as [|x l IHl]; simpl; [reflexivity|].
    now rewrite <- IHl.
  - apply orb_false_iff in H as [Hc Ht]. rewrite Hc, IH by exact Ht.
    now rewrite string_app_assoc.
Qed.

Lemma scan_lines_tail : forall tail line q,
  contains LF tail = false -> scan_lines env tail line q = Done q.
Proof.
  induction tail as [|c t IH]; simpl; intros line q H; [reflexivity|].
  apply orb_false_iff in H as [Hc Ht]. rewrite Hc. now apply IH.
Qed.

Lemma scan_lines_ignore_tail : forall tail,
  contains LF tail = false ->
  forall buf line q,
    scan_lines env (buf ++ tail) line q = scan_lines env buf line q.
Proof.
  intros tail Ht. induction buf as [|c t IH]; simpl; intros line q.
  - now apply scan_lines_tail.
  - destruct (Ascii.eqb c LF); [|apply IH].
    destruct (setup_requirement_line env (cstr line) q) as [r q'].
    destruct (r =? 0); [apply IH|reflexivity].
Qed.

Lemma scan_lines_skip_line : forall text post,
  contains LF text = false ->
  contains "="%char text = false ->
  forall pre line q,
    whole_lines pre = true ->
    (pre = EmptyString -> line = EmptyString) ->
    scan_lines env (pre ++ text ++ nl ++ post) line q
    = scan_lines env (pre ++ post) line q.
Proof.
  intros text post Hnl Heq.
  induction pre as [|c p IH]; intros line q Hw Hl.
  - rewrite (Hl eq_refl). simpl.
    rewrite scan_lines_no_newline by exact Hnl. simpl.
    rewrite line_without_equals by (now apply contains_cstr).
    reflexivity.
  - change (scan_lines env (String c (p ++ text ++ nl ++ post)) line q
            = scan_lines env (String c (p ++ post)) line q).
    cbn [scan_lines].
    assert (Hp : whole_lines p = true).
    { destruct p; [reflexivity|exact Hw]. }
    destruct (Ascii.eqb c LF) eqn:Ec.
    + destruct (setup_requirement_line env (cstr line) q) as [r q'].
      destruct (r =? 0); [|reflexivity]. now apply IH.
    + apply IH; [exact Hp|].
      intros ->. simpl in Hw. congruence.
Qed.

(** With every allocation granted, the copy loop returns the stripped
    values. *)
Lemma dup_values_ok : forall vals,
  (forall n, malloc_ok env n = true) ->
  dup_values env vals = Some (List.map strip vals).
Proof.
  intros vals H. induction vals as [|v l IH]; simpl; [reflexivity|].
  now rewrite H, IH.
Qed.

(** What the splitting loop leaves in [val]. *)
Lemma split_values_spec : forall left text,
  let raw := split_values left text in
  List.length raw = Nat.min (S (count_char "|" text)) (S left)
  /\ String.concat "|" raw = text
  /\ (forall i, (i < List.length raw - 1)%nat ->
        contains "|" (nth i raw "") = false)
  /\ count_char "|" (last raw "")
     = (count_char "|" text - (List.length raw - 1))%nat.
Proof.
  induction left as [|k IH]; intros text; cbn zeta.
  - simpl. split; [destruct (count_char "|" text); reflexivity|].
    split; [reflexivity|]. split; [intros i Hi; lia|lia].
  - cbn [split_values].
    destruct (strchr text "|") as [[a b]|] eqn:E.
    + apply strchr_some in E as [-> Ha].
      specialize (IH b). cbn zeta in IH.
      destruct IH as (Hlen & Hcat & Hnth & Hlast).
      assert (Hne : split_values k b <> []).
      { destruct k; simpl; [discriminate|].
        destruct (strchr b "|") as [[? ?]|]; discriminate. }
      rewrite count_char_app, (count_char_absent _ _ Ha).
      cbn [count_char]. rewrite Ascii.eqb_refl.
      repeat split.
      * cbn [List.length]. rewrite Hlen. lia.
      * cbn [String.concat].
        destruct (split_values k b) as [|x l] eqn:Es; [congruence|].
        now rewrite Hcat.
      * intros [|i] Hi; [exact Ha|]. cbn [nth]. apply Hnth.
        cbn [List.length] in Hi. lia.
      * destruct (split_values k b) as [|x l] eqn:Es; [congruence|].
        change (last (a :: x :: l) "") with (last (x :: l) "").
        rewrite Hlast. cbn [List.length]. lia.
    + apply strchr_none_inv in E.
      rewrite (count_char_absent _ _ E). simpl.
      rewrite (count_char_absent _ _ E).
      split; [reflexivity|]. split; [reflexivity|].
      split; [intros i Hi; lia|reflexivity].
Qed.

End RequirementFacts.

(** ** The scanner loop *)

(** Case analysis on a round of the loop that is known to have gone on:
    the chain of [strcmp] tests from its head, then the tests inside the
    branch taken. *)
Ltac step_cases H :=
  unfold Scanner.step, Scanner.require, Scanner.with_optional_file in H;
  repeat match type of H with
  | (if CStr.streq ?a ?b then _ else _) = _ =>
      destruct (CStr.streq a b) eqn:?
  | context [if ?a <? ?b then _ else _] => destruct (a <? b) eqn:?
  | context [Loader.load_file ?e ?f] =>
      destruct (Loader.load_file e f) as [[? ?]|] eqn:?
  | context [Strtoul.strtoul ?e ?f] =>
      destruct (Strtoul.strtoul e f) as [? ?] eqn:?
  | context [Oem.do_oem_command ?a ?q] =>
      destruct (Oem.do_oem_command a q) as [[? ?]|] eqn:?
  | context [if ?c then _ else _] => destruct c eqn:?
  end;
  try discriminate; inversion H; subst; clear H.

Section ScannerFacts.
Import CStr Engine Scanner Table.

Variable env : Env.

Lemma do_oem_command_returns_zero : forall a q r q',
  Oem.do_oem_command a q = Some (r, q') -> r = 0.
Proof.
  intros a q r q' H. unfold Oem.do_oem_command in H.
  destruct (Z.of_nat (List.length a) <=? 1); [now inversion H|].
  destruct (Oem.oem_loop "" a); now inversion H.
Qed.

Lemma skipn_shorter : forall (l : list string) n,
  l <> [] -> (1 <= n)%nat ->
  (List.length (skipn n l) < List.length l)%nat.
Proof.
  intros l n Hl Hn. rewrite List.length_skipn.
  destruct l; [congruence|]. cbn [List.length]. lia.
Qed.

(** Every round that goes on has consumed a token. *)
Lemma step_consumes : forall st st',
  argv st <> [] -> step env st = Next st' ->
  (List.length (argv st') < List.length (argv st))%nat.
Proof.
  intros st st' Hne H.
  step_cases H; cbn [argv skip set_argv set_queue set_sz set_serial
                     set_vendor_id];
    try (apply skipn_shorter; [assumption|lia]).
  match goal with
  | E : Oem.do_oem_command _ _ = Some _ |- _ =>
      apply do_oem_command_returns_zero in E; subst
  end.
  simpl. destruct (argv st); [congruence|simpl; lia].
Qed.

(** The bound on the rounds does not matter once it covers the tokens
    left, and the loop never runs out of it. *)
Lemma main_loop_fuel : forall f1 f2 st,
  (List.length (argv st) <= f1)%nat ->
  (List.length (argv st) <= f2)%nat ->
  main_loop env f1 st = main_loop env f2 st.
Proof.
  induction f1 as [|k1 IH]; intros f2 st H1 H2.
  - destruct (argv st) eqn:E; [|simpl in H1; lia].
    destruct f2; simpl; now rewrite E.
  - destruct (argv st) as [|a l] eqn:E.
    + destruct f2; simpl; now rewrite E.
    + destruct f2 as [|k2]; [simpl in H2; lia|].
      simpl. rewrite E.
      destruct (step env st) as [st'|o] eqn:Es; [|reflexivity].
      pose proof (step_consumes st st') as Hc. rewrite E in Hc.
      specialize (Hc ltac:(discriminate) Es).
      simpl in *. apply IH; lia.
Qed.

Lemma main_loop_total : forall f st,
  (List.length (argv st) <= f)%nat -> main_loop env f st <> OutOfFuel.
Proof.
  induction f as [|k IH]; intros st H.
  - destruct (argv st) eqn:E; [|simpl in H; lia]. simpl. now rewrite E.
  - simpl. destruct (argv st) as [|a l] eqn:E; [discriminate|].
    destruct (step env st) as [st'|o] eqn:Es.
    + pose proof (step_consumes st st') as Hc. rewrite E in Hc.
      specialize (Hc ltac:(discriminate) Es).
      simpl in *. apply IH. lia.
    + intros ->. step_cases Es.
Qed.

(** [main] sets the bound to the number of tokens: it always ends in
    one of the outcomes of the program. *)
Lemma main_total : forall argv0, main env argv0 <> OutOfFuel.
Proof.
  intros [|prog [|first more]]; cbn [main]; try discriminate.
  destruct (streq first "devices"); [discriminate|].
  apply main_loop_total. cbn [initial argv]. lia.
Qed.

Lemma main_loop_reaches : forall st st',
  reaches env st st' ->
  forall f f',
    (List.length (argv st) <= f)%nat ->
    (List.length (argv st') <= f')%nat ->
    main_loop env f st = main_loop env f' st'.
Proof.
  induction 1 as [st|st st1 st2 Hne Hs Hr IH]; intros f f' Hf Hf'.
  - now apply main_loop_fuel.
  - destruct f as [|k]; [destruct (argv st); [congruence|simpl in Hf; lia]|].
    simpl. destruct (argv st) as [|a l] eqn:E; [congruence|].
    rewrite Hs.
    pose proof (step_consumes st st1) as Hc. rewrite E in Hc.
    specialize (Hc ltac:(discriminate) Hs).
    simpl in *. apply IH; lia.
Qed.

(** A token the chain does not know, or too few tokens for its branch,
    ends the round in [usage()]. *)
Lemma bad_head_usage : forall st,
  bad_head st = true -> step env st = Halt UsageExit.
Proof.
  intros st H. unfold bad_head in H.
  destruct (argv st) as [|cmd rest] eqn:E; [discriminate|].
  assert (Ha : arg 0 st = cmd) by (unfold arg; now rewrite E).
  assert (Hc : (argc st <? 1) = false).
  { unfold argc. rewrite E. cbn [List.length]. apply Z.ltb_ge. lia. }
  unfold step, required_tokens in *. rewrite Ha.
  repeat match goal with
  | |- (if streq ?a ?b then _ else _) = _ => destruct (streq a b) eqn:?
  end;
  unfold require; try rewrite H; try reflexivity; congruence.
Qed.

End ScannerFacts.

(** ** [strtoul] on literals *)

Section StrtoulFacts.
Import CStr Strtoul SpecWords.

Ltac each_char c :=
  destruct c as [[] [] [] [] [] [] [] []]; vm_compute.

Lemma digit_val_range : forall c d,
  digit_val c = Some d ->
  0 <= d < 36 /\ isspace c = false
  /\ Ascii.eqb c "-" = false /\ Ascii.eqb c "+" = false.
Proof.
  intros c d H.
  assert (Hd : 0 <= d < 36).
  { unfold digit_val in H.
    destruct ((48 <=? Z.of_N (N_of_ascii c)) && (Z.of_N (N_of_ascii c) <=? 57))
      eqn:E1; [inversion H; lia|].
    destruct ((97 <=? Z.of_N (N_of_ascii c)) && (Z.of_N (N_of_ascii c) <=? 122))
      eqn:E2; [inversion H; lia|].
    destruct ((65 <=? Z.of_N (N_of_ascii c)) && (Z.of_N (N_of_ascii c) <=? 90))
      eqn:E3; [inversion H; lia|discriminate]. }
  split; [exact Hd|]. clear Hd. revert H.
  each_char c; intros H; try discriminate H; repeat split.
Qed.

Lemma is_digit_inv : forall base c,
  is_digit base c = true ->
  exists d, digit_val c = Some d /\ 0 <= d < base.
Proof.
  intros base c H. unfold is_digit in H.
  destruct (digit_val c) as [d|] eqn:E; [|discriminate].
  exists d. split; [reflexivity|].
  apply digit_val_range in E. lia.
Qed.

Lemma digits_value_grows : forall base s acc,
  1 <= base -> 0 <= acc -> all_digits base s = true ->
  acc <= digits_value base s acc.
Proof.
  intros base s. induction s as [|c t IH]; simpl; intros acc Hb Ha H; [lia|].
  apply andb_prop in H as [Hc Ht].
  apply is_digit_inv in Hc as (d & -> & Hd).
  specialize (IH (acc * base + d) Hb ltac:(nia) Ht). nia.
Qed.

Lemma scan_digits_saturated : forall base max s acc,
  all_digits base s = true ->
  scan_digits base max s acc true = (acc, true, EmptyString).
Proof.
  intros base max s acc. induction s as [|c t IH]; simpl; intros H;
    [reflexivity|].
  apply andb_prop in H as [Hc Ht].
  apply is_digit_inv in Hc as (d & -> & Hd).
  replace (d <? base) with true by (symmetry; apply Z.ltb_lt; lia).
  now apply IH.
Qed.

(** On a run of digits the loop reads them all; it returns their value,
    or has seen it pass the maximum. *)
Lemma scan_digits_all : forall base max s acc,
  1 <= base -> 0 <= acc -> all_digits base s = true ->
  exists v ovf,
    scan_digits base max s acc false = (v, ovf, EmptyString)
    /\ (ovf = false -> v = digits_value base s acc /\ v <= Z.max acc max)
    /\ (ovf = true -> max < digits_value base s acc).
Proof.
  intros base max s. induction s as [|c t IH]; simpl; intros acc Hb Ha H.
  - exists acc, false. repeat split; try lia; discriminate.
  - apply andb_prop in H as [Hc Ht].
    apply is_digit_inv in Hc as (d & -> & Hd).
    replace (d <? base) with true by (symmetry; apply Z.ltb_lt; lia).
    destruct (max <? acc * base + d) eqn:E.
    + rewrite scan_digits_saturated by exact Ht.
      exists acc, true. split; [reflexivity|]. split; [discriminate|].
      intros _. apply Z.ltb_lt in E.
      pose proof (digits_value_grows base t (acc * base + d) Hb
                    ltac:(nia) Ht). lia.
    + apply Z.ltb_ge in E.
      destruct (IH (acc * base + d) Hb ltac:(nia) Ht)
        as (v & ovf & Hs & Hok & Hov).
      exists v, ovf. split; [exact Hs|]. split; [|exact Hov].
      intros Ho. destruct (Hok Ho) as [Hv Hm]. split; [exact Hv|lia].
Qed.

(** The test of the high bits in [main]. *)
Lemma high_bits_clear : forall v,
  0 <= v -> (Z.land v (Z.lnot 65535) =? 0) = (v <? 65536).
Proof.
  intros v Hv.
  change 65535 with (Z.ones 16).
  rewrite <- Z.ldiff_land, Z.ldiff_ones_r by lia.
  rewrite Z.shiftr_div_pow2, Z.shiftl_mul_pow2 by lia.
  change (2 ^ 16) with 65536.
  destruct (v <? 65536) eqn:E.
  - apply Z.ltb_lt in E. rewrite Z.div_small by lia. reflexivity.
  - apply Z.ltb_ge in E. apply Z.eqb_neq.
    assert (1 <= v / 65536) by (apply Z.div_le_lower_bound; lia). lia.
Qed.

Variable env : Env.
Hypothesis wide : 32 <= ulong_bits env.

Lemma ULONG_MAX_large : 2 ^ 32 - 1 <= ULONG_MAX env.
Proof.
  unfold ULONG_MAX.
  assert (2 ^ 32 <= 2 ^ ulong_bits env) by (apply Z.pow_le_mono_r; lia).
  lia.
Qed.

(** A run of digits after the prefix, with no sign and no white space
    before it. *)
Lemma strtoul_digits : forall c t base s3,
  isspace c = false -> Ascii.eqb c "-" = false -> Ascii.eqb c "+" = false ->
  read_base (String c t) = (base, s3) ->
  1 <= base -> s3 <> EmptyString -> all_digits base s3 = true ->
  exists val,
    strtoul env (String c t) = (val, EmptyString)
    /\ 0 <= val
    /\ (val <? 65536) = (digits_value base s3 0 <? 65536)
    /\ (digits_value base s3 0 < 65536 -> val = digits_value base s3 0).
Proof.
  intros c t base s3 Hsp Hm Hp Hb Hb1 Hne Hall.
  unfold strtoul. cbn [skip_spaces]. rewrite Hsp.
  unfold read_sign. rewrite Hm, Hp, Hb.
  assert (Hsd : starts_with_digit base s3 = true).
  { destruct s3; [congruence|]. simpl in *. now apply andb_prop in Hall. }
  rewrite Hsd.
  destruct (scan_digits_all base (ULONG_MAX env) s3 0 Hb1 ltac:(lia) Hall)
    as (v & ovf & Hs & Hok & Hov).
  rewrite Hs. pose proof ULONG_MAX_large as HM.
  pose proof (digits_value_grows base s3 0 Hb1 ltac:(lia) Hall) as Hg.
  destruct ovf.
  - specialize (Hov eq_refl). exists (ULONG_MAX env).
    split; [reflexivity|]. split; [lia|]. split; [|lia].
    transitivity false; [apply Z.ltb_ge; lia|symmetry; apply Z.ltb_ge; lia].
  - destruct (Hok eq_refl) as [-> _]. exists (digits_value base s3 0).
    repeat split; lia.
Qed.

(** On a literal of the specification that C does not read as octal,
    [strtoul] consumes the whole string and returns the literal's value,
    or at least 65536 when the literal's value is that large. *)
Lemma strtoul_literal : forall v value,
  uint_literal v = Some value -> leading_zero v = false ->
  exists val,
    strtoul env v = (val, EmptyString)
    /\ 0 <= val
    /\ (val <? 65536) = (value <? 65536)
    /\ (value < 65536 -> val = value).
Proof.
  intros v value Hlit Hz.
  destruct v as [|z t]; [discriminate|].
  assert (Hdec : all_digits 10 (String z t) = true ->
            Some (digits_value 10 (String z t) 0) = Some value ->
            Ascii.eqb z "0" = false \/ t = EmptyString ->
            exists val,
              strtoul env (String z t) = (val, EmptyString)
              /\ 0 <= val
              /\ (val <? 65536) = (value <? 65536)
              /\ (value < 65536 -> val = value)).
  { intros Hall Hv Hcase. inversion Hv as [Hv']. clear Hv.
    pose proof Hall as Hall'. cbn [all_digits] in Hall'.
    apply andb_prop in Hall' as [Hzd _].
    apply is_digit_inv in Hzd as (d & Hd & _).
    apply digit_val_range in Hd as (_ & Hsp & Hm & Hp).
    destruct (Ascii.eqb z "0") eqn:Ez.
    - destruct Hcase as [Hc | Hc]; [discriminate|]. subst t.
      apply Ascii.eqb_eq in Ez. subst z.
      apply (strtoul_digits "0" "" 8 "0"); try reflexivity; try lia.
      discriminate.
    - apply (strtoul_digits z t 10 (String z t)); try assumption; try lia.
      + unfold read_base. now rewrite Ez.
      + discriminate. }
  unfold uint_literal in Hlit.
  destruct t as [|x [|h u]].
  - destruct (all_digits 10 (String z "")) eqn:Hall; [|discriminate].
    apply Hdec; auto.
  - destruct (all_digits 10 (String z (String x ""))) eqn:Hall;
      [|discriminate].
    apply Hdec; auto. left.
    destruct (Ascii.eqb z "0") eqn:Ez; [|reflexivity].
    simpl in Hz. rewrite Ez in Hz. simpl in Hz.
    apply negb_false_iff in Hz.
    simpl in Hall. apply andb_prop in Hall as [_ Hx].
    apply andb_prop in Hx as [Hx _].
    unfold is_x in Hz. apply orb_prop in Hz as [Hx'|Hx'];
      apply Ascii.eqb_eq in Hx'; subst x; discriminate Hx.
  - destruct (Ascii.eqb z "0" && is_x x) eqn:Ezx.
    + destruct (all_digits 16 (String h u)) eqn:Hall; [|discriminate].
      inversion Hlit as [Hv]. clear Hlit.
      apply andb_prop in Ezx as [Ez Ex].
      apply Ascii.eqb_eq in Ez. subst z.
      apply (strtoul_digits "0" (String x (String h u)) 16 (String h u));
        try reflexivity; try lia; try assumption; try discriminate.
      unfold read_base. cbn [Ascii.eqb]. simpl.
      unfold is_x in Ex. rewrite Ex.
      simpl in Hall. apply andb_prop in Hall as [-> _]. reflexivity.
    + destruct (all_digits 10 (String z (String x (String h u)))) eqn:Hall;
        [|discriminate].
      apply Hdec; auto. left.
      destruct (Ascii.eqb z "0") eqn:Ez; [|reflexivity].
      simpl in Hz. rewrite Ez in Hz. simpl in Ezx, Hz.
      rewrite Ezx in Hz. discriminate.
Qed.

End StrtoulFacts.

(** ** The [oem] command and the file loader *)

Section OemFacts.
Import CStr Engine Oem Loader.

Lemma strlen_app : forall a b, strlen (a ++ b) = strlen a + strlen b.
Proof.
  intros a b. unfold strlen.
  induction a as [|c t IH]; cbn [append String.length]; lia.
Qed.

Lemma strlen_nonneg : forall s, 0 <= strlen s.
Proof. intros s. unfold strlen. lia. Qed.

(** While the text fits in [command], the loop builds the tokens joined
    with single spaces. *)
Lemma oem_loop_joins : forall argv command,
  argv <> [] ->
  strlen (command ++ String.concat " " argv) < 256 ->
  oem_loop command argv = Some (command ++ String.concat " " argv)%string.
Proof.
  induction argv as [|a rest IH]; intros command Hne Hlen; [congruence|].
  cbn [oem_loop]. destruct rest as [|b rest'].
  - cbn [String.concat] in *. unfold strcat.
    apply Z.ltb_lt in Hlen. now rewrite Hlen.
  - remember (b :: rest') as rest eqn:Er.
    assert (Hc : String.concat " " (a :: rest)
                 = (a ++ " " ++ String.concat " " rest)%string).
    { subst rest. reflexivity. }
    rewrite Hc in *. rewrite !strlen_app in Hlen.
    pose proof (strlen_nonneg (String.concat " " rest)).
    pose proof (strlen_nonneg a).
    change (strlen " ") with 1 in Hlen.
    unfold strcat at 1. rewrite strlen_app.
    replace (strlen command + strlen a <? 256) with true
      by (symmetry; apply Z.ltb_lt; lia).
    unfold strcat at 1. rewrite !strlen_app. change (strlen " ") with 1.
    replace (strlen command + strlen a + 1 <? 256) with true
      by (symmetry; apply Z.ltb_lt; lia).
    subst rest. rewrite IH.
    + now rewrite <- !string_app_assoc.
    + discriminate.
    + rewrite !strlen_app. change (strlen " ") with 1. lia.
Qed.

Lemma substring_all : forall s, String.substring 0 (String.length s) s = s.
Proof.
  induction s as [|c t IH]; simpl; [reflexivity|]. now rewrite IH.
Qed.





End OemFacts.

(** ** The claims about the requirements parser *)

Section RequirementClaims.
Import CStr Engine Requirements Samples.

(** C1, as the specification states it, fails: in a buffer whose second
    line has no '=', nothing aborts; the line is passed over and the
    records of the lines before and after it are queued. *)
Lemma C1_counterexample :
  setup_requirements plain_env
    ("product=alpha" ++ nl ++ "no equals sign here" ++ nl ++ "board=x" ++ nl)
    []
  = Done [Requirement "product" false 1 ["alpha"];
          Requirement "product" false 1 ["x"]].
Proof. reflexivity. Qed.

(** C1, amended: a line of a requirements buffer that holds no '=' is
    passed over. [setup_requirement_line] returns 0 for it and queues
    nothing, and the buffer parses exactly as it does with that line
    taken out: no error is raised and the records of the other lines are
    kept. *)
Theorem C1_line_without_equals_is_skipped :
  forall env pre line post q,
    whole_lines pre = true ->
    contains LF line = false ->
    contains "="%char line = false ->
    setup_requirement_line env (cstr line) q = (0, q)
    /\ setup_requirements env (pre ++ line ++ nl ++ post) q
       = setup_requirements env (pre ++ post) q.
Proof.
  intros env pre line post q Hw Hnl Heq. split.
  - apply line_without_equals. now apply contains_cstr.
  - unfold setup_requirements.
    apply scan_lines_skip_line; auto.
Qed.

Lemma C1_witness :
  setup_requirement_line plain_env (cstr "no equals sign here") [] = (0, [])
  /\ setup_requirements plain_env
       (("product=alpha" ++ nl) ++ "no equals sign here" ++ nl
        ++ ("board=x" ++ nl)) []
     = setup_requirements plain_env
         (("product=alpha" ++ nl) ++ ("board=x" ++ nl)) [].
Proof.
  apply (C1_line_without_equals_is_skipped plain_env
           ("product=alpha" ++ nl) "no equals sign here" ("board=x" ++ nl) []);
    reflexivity.
Defined.

(** C9: in a line with an '=', the text after the first '=' is cut at
    '|' into at most 32 values. The pieces joined with '|' give the
    text back, every piece but the last is free of '|', and every '|'
    after the splits made (at most 31) stays in the last value, also once
    it is stripped: so with 32 values the 33rd '|' and the later ones
    are part of the 32nd value. With every allocation granted the line
    returns 0 and queues that record. *)
Theorem C9_at_most_32_values :
  forall env line q name text,
    (forall n, malloc_ok env n = true) ->
    strchr (fst (read_keyword line)) "="%char = Some (name, text) ->
    let raw := split_values (MAX_OPTIONS - 1) text in
    setup_requirement_line env line q
    = (0, (q ++ [Requirement
                   (if streq (strip name) "board" then "product"
                    else strip name)
                   (snd (read_keyword line))
                   (Z.of_nat (List.length raw))
                   (List.map strip raw)])%list)
    /\ (List.length raw
        = Nat.min (S (count_char "|" text)) MAX_OPTIONS)%nat
    /\ String.concat "|" raw = text
    /\ (forall i, (i < List.length raw - 1)%nat ->
          contains "|" (nth i raw "") = false)
    /\ (count_char "|" (strip (last raw ""))
        = count_char "|" text - (List.length raw - 1))%nat.
Proof.
  intros env line q name text H Hs raw.
  destruct (split_values_spec (MAX_OPTIONS - 1) text)
    as (Hlen & Hcat & Hnth & Hlast).
  fold raw in Hlen, Hcat, Hnth, Hlast.
  split; [|split; [exact Hlen|split; [exact Hcat|split; [exact Hnth|]]]].
  - unfold setup_requirement_line.
    destruct (read_keyword line) as [nm inv]. cbn [fst snd] in *.
    rewrite Hs. fold raw.
    rewrite strip_idem, H, dup_values_ok by exact H.
    rewrite map_strip_idem. reflexivity.
  - rewrite count_char_strip by reflexivity. exact Hlast.
Qed.

Lemma C9_witness :
  setup_requirement_line plain_env forty_bars []
  = (0, [Requirement "v" false 32
           (List.repeat "a" 31 ++ ["a|a|a|a|a|a|a|a|a|a"])%list])
  /\ count_char "|" "a|a|a|a|a|a|a|a|a|a" = 9%nat.
Proof.
  pose proof (C9_at_most_32_values plain_env forty_bars [] "v"
                (String.concat "|" (List.repeat "a" 41))
                (fun _ => eq_refl) eq_refl) as H.
  cbv zeta in H. destruct H as (H1 & _ & _ & _ & H5).
  split; [exact H1|exact H5].
Defined.

(** C10: the bytes after the last newline of a requirements buffer are
    ignored. A tail without a newline changes nothing in what the buffer
    before it yields, and a buffer without any newline returns with the
    queue as it was: no record, no error. *)
Theorem C10_unterminated_tail_is_ignored :
  forall env buf tail q,
    contains LF tail = false ->
    setup_requirements env (buf ++ tail) q = setup_requirements env buf q
    /\ setup_requirements env tail q = Done q.
Proof.
  intros env buf tail q H. unfold setup_requirements. split.
  - now apply scan_lines_ignore_tail.
  - now apply scan_lines_tail.
Qed.

Lemma C10_witness :
  setup_requirements plain_env (("product=alpha" ++ nl) ++ "board=x") []
  = setup_requirements plain_env ("product=alpha" ++ nl) []
  /\ setup_requirements plain_env "board=x" [] = Done [].
Proof.
  apply (C10_unterminated_tail_is_ignored plain_env
           ("product=alpha" ++ nl) "board=x" []).
  reflexivity.
Defined.

End RequirementClaims.

(** ** The claims about the scanner *)

Section ScannerClaims.
Import CStr Engine Scanner Table SpecWords Samples.

(** C2, as the specification states it, fails: for the tokens
    oem foo bar the command queued is "oem foo bar", the keyword
    included, and not "foo bar". *)
Lemma C2_counterexample :
  main plain_env ["fastboot"; "oem"; "foo"; "bar"]
  = Done (QueueExecuted
            (mkState [] None 0 77 [GenericCommand "oem foo bar" ""]))
  /\ main plain_env ["fastboot"; "oem"; "foo"; "bar"]
     <> Done (QueueExecuted
                (mkState [] None 0 77 [GenericCommand "foo bar" ""])).
Proof. split; [reflexivity|discriminate]. Qed.

(** C2, amended: for the tokens oem foo bar the queue is exactly one
    generic command whose name is "oem foo bar" and whose message is
    empty; in general the name is every token from the keyword oem on,
    joined with single spaces, as long as it fits the 256-byte buffer.
    The token oem alone queues nothing and is no error. *)
Theorem C2_oem_command_keeps_keyword :
  forall env prog args,
    args <> [] ->
    strlen (String.concat " " ("oem" :: args)) < 256 ->
    main env (prog :: "oem" :: args)
    = Done (QueueExecuted
              (mkState [] (KINDLE_SERIAL env) 0 (stack_sz env)
                 [GenericCommand (String.concat " " ("oem" :: args)) ""]))
    /\ main env [prog; "oem"]
       = Done (QueueExecuted
                 (mkState [] (KINDLE_SERIAL env) 0 (stack_sz env) [])).
Proof.
  intros env prog args Hne Hlen. split; [|reflexivity].
  unfold main. change (streq "oem" "devices") with false. cbv iota.
  cbn [List.length main_loop initial argv].
  assert (Hs : step env (initial env ("oem" :: args))
               = Next (mkState [] (KINDLE_SERIAL env) 0 (stack_sz env)
                         [GenericCommand
                            (String.concat " " ("oem" :: args)) ""])).
  { unfold step, arg, initial. cbn [argv nth queue].
    change (streq "oem" "-s") with false.
    cbn -[Oem.do_oem_command String.concat].
    unfold Oem.do_oem_command.
    replace (Z.of_nat (List.length ("oem" :: args)) <=? 1) with false.
    - rewrite (oem_loop_joins ("oem" :: args) "") by
        (try discriminate; exact Hlen).
      reflexivity.
    - symmetry. apply Z.leb_gt. destruct args; [congruence|].
      cbn [List.length]. lia. }
  rewrite Hs. destruct args; [congruence|reflexivity].
Qed.

Lemma C2_witness :
  main plain_env ["fastboot"; "oem"; "foo"; "bar"]
  = Done (QueueExecuted
            (mkState [] None 0 77 [GenericCommand "oem foo bar" ""]))
  /\ main plain_env ["fastboot"; "oem"]
     = Done (QueueExecuted (mkState [] None 0 77 [])).
Proof.
  apply (C2_oem_command_keeps_keyword plain_env "fastboot" ["foo"; "bar"]).
  - discriminate.
  - reflexivity.
Defined.





(** C4, on the code: for the tokens flash boot the queue is the one
    flash of boot, but the length queued is whatever the local [sz]
    held when [main] began, since nothing has assigned it; it is 0 only
    if that garbage is 0. *)
Theorem C4_flash_without_file_reads_unset_sz :
  forall env prog,
    main env [prog; "flash"; "boot"]
    = Done (QueueExecuted
              (mkState [] (KINDLE_SERIAL env) 0 (stack_sz env)
                 [Flash "boot" (stack_sz env)])).
Proof. intros env prog. reflexivity. Qed.

(** C4 at a run whose stack slot holds 77: the flash is queued with
    length 77, not 0. *)
Lemma C4_failing_run :
  main plain_env ["fastboot"; "flash"; "boot"]
  = Done (QueueExecuted (mkState [] None 0 77 [Flash "boot" 77]))
  /\ main plain_env ["fastboot"; "flash"; "boot"]
     <> Done (QueueExecuted (mkState [] None 0 77 [Flash "boot" 0])).
Proof. split; [reflexivity|discriminate]. Qed.

(** The [-i] branch of the chain, at any state of the loop. *)
Lemma step_vendor_option : forall env st v rest,
  argv st = "-i" :: v :: rest ->
  step env st
  = (let '(val, endptr) := Strtoul.strtoul env v in
     if negb (streq endptr "") || negb (Z.land val (Z.lnot 65535) =? 0)
     then Halt (Died ("invalid vendor id '" ++ v ++ "'"))
     else Next (mkState rest (serial st) (val mod 2 ^ 16) (sz st)
                  (queue st))).
Proof.
  intros env st v rest H.
  unfold step, arg, require, argc, skip, set_vendor_id, set_argv.
  rewrite H. cbn [nth argv serial vendor_id sz queue skipn].
  change (streq "-i" "-s") with false. change (streq "-i" "-i") with true.
  cbv iota.
  replace (Z.of_nat (List.length ("-i" :: v :: rest)) <? 2) with false
    by (symmetry; apply Z.ltb_ge; cbn [List.length]; lia).
  destruct (Strtoul.strtoul env v) as [val endptr].
  destruct (negb (streq endptr "") || negb (Z.land val (Z.lnot 65535) =? 0));
    reflexivity.
Qed.

(** C6, as the specification states it, fails in both directions: the
    empty string is no integer literal, yet [-i] accepts it and sets the
    vendor id to 0; and 08 is a decimal literal that fits in 16 bits, yet
    [-i] rejects it, because C reads a leading 0 as octal. *)
Lemma C6_counterexample :
  (uint_literal "" = None
   /\ main plain_env ["fastboot"; "-i"; ""; "reboot"]
      = Done (QueueExecuted (mkState [] None 0 77 [Reboot])))
  /\ (uint_literal "08" = Some 8
      /\ main plain_env ["fastboot"; "-i"; "08"; "reboot"]
         = Died "invalid vendor id '08'").
Proof. repeat split. Qed.

(** C6, amended: for every [-i] option whose value is a decimal literal
    without a leading zero or a 0x-prefixed hexadecimal literal, the value
    is accepted exactly when it fits in 16 bits, and it then becomes the
    vendor id; when it does not fit, the run ends at once in [die], and
    no further token is read. So [-i 0x10000] fails and [-i 0x1949]
    sets the vendor id to 0x1949. (Other values are read by [strtoul] with
    base 0; the theorem does not speak about them.) *)
Theorem C6_vendor_id_literal :
  forall env st v value rest,
    32 <= ulong_bits env ->
    argv st = "-i" :: v :: rest ->
    uint_literal v = Some value ->
    leading_zero v = false ->
    (value < 2 ^ 16 ->
       step env st
       = Next (mkState rest (serial st) value (sz st) (queue st)))
    /\ (2 ^ 16 <= value ->
          forall fuel,
            main_loop env (S fuel) st
            = Died ("invalid vendor id '" ++ v ++ "'"))
    /\ (forall prog more,
          main env (prog :: "-i" :: "0x10000" :: more)
          = Died "invalid vendor id '0x10000'")
    /\ (forall prog,
          main env [prog; "-i"; "0x1949"]
          = Done (QueueExecuted
                    (mkState [] (KINDLE_SERIAL env) 6473 (stack_sz env) []))).
Proof.
  intros env st v value rest Hw Hargv Hlit Hz.
  assert (Hgen : forall st v value rest,
            argv st = "-i" :: v :: rest ->
            uint_literal v = Some value ->
            leading_zero v = false ->
            step env st
            = if value <? 65536
              then Next (mkState rest (serial st) value (sz st) (queue st))
              else Halt (Died ("invalid vendor id '" ++ v ++ "'"))).
  { clear st v value rest Hargv Hlit Hz.
    intros st v value rest Hargv Hlit Hz.
    rewrite (step_vendor_option env st v rest Hargv).
    destruct (strtoul_literal env Hw v value Hlit Hz)
      as (val & -> & H0 & Hfit & Hval).
    cbn [streq String.eqb negb orb].
    rewrite (high_bits_clear val H0), Hfit.
    destruct (value <? 65536) eqn:E; cbn [negb]; [|reflexivity].
    apply Z.ltb_lt in E. rewrite (Hval E).
    rewrite <- (Hval E) at 1. rewrite Z.mod_small; [|rewrite (Hval E) in H0; lia].
    now rewrite (Hval E). }
  change (2 ^ 16) with 65536.
  split; [|split; [|split]].
  - intros Hv. rewrite (Hgen st v value rest Hargv Hlit Hz).
    now replace (value <? 65536) with true by (symmetry; apply Z.ltb_lt; lia).
  - intros Hv fuel. cbn [main_loop]. rewrite Hargv.
    rewrite (Hgen st v value rest Hargv Hlit Hz).
    now replace (value <? 65536) with false by (symmetry; apply Z.ltb_ge; lia).
  - intros prog more. unfold main.
    change (streq "-i" "devices") with false. cbv iota.
    cbn [List.length main_loop initial argv].
    rewrite (Hgen (initial env ("-i" :: "0x10000" :: more)) "0x10000" 65536
               more eq_refl eq_refl eq_refl).
    reflexivity.
  - intros prog. unfold main.
    change (streq "-i" "devices") with false. cbv iota.
    cbn [List.length main_loop initial argv].
    rewrite (Hgen (initial env ["-i"; "0x1949"]) "0x1949" 6473
               [] eq_refl eq_refl eq_refl).
    reflexivity.
Qed.

Lemma C6_witness :
  (1993 < 2 ^ 16 ->
     step plain_env (mkState ["-i"; "1993"; "reboot"] None 0 77 [Erase "x"])
     = Next (mkState ["reboot"] None 1993 77 [Erase "x"]))
  /\ main plain_env ["fastboot"; "-i"; "0x1949"]
     = Done (QueueExecuted (mkState [] None 6473 77 [])).
Proof.
  pose proof (C6_vendor_id_literal plain_env
                (mkState ["-i"; "1993"; "reboot"] None 0 77 [Erase "x"])
                "1993" 1993 ["reboot"]
                ltac:(vm_compute; discriminate) eq_refl eq_refl eq_refl)
    as (H1 & _ & _ & H4).
  split; [exact H1|exact (H4 "fastboot")].
Defined.

(** C7, as the specification states it, fails: after the command getvar
    has been consumed and queued, the tokens [-s abc] still change the
    serial filter and the tokens [-i 0x1234] the vendor id. *)
Lemma C7_counterexample :
  exists st1 st2 st3,
    step plain_env (initial plain_env
                      ["getvar"; "product"; "-s"; "abc"; "-i"; "0x1234"])
    = Next st1
    /\ queue st1 = [Display "product" "product"]
    /\ serial st1 = None /\ vendor_id st1 = 0
    /\ step plain_env st1 = Next st2
    /\ serial st2 = Some "abc"
    /\ step plain_env st2 = Next st3
    /\ vendor_id st3 = 4660
    /\ main plain_env
         ["fastboot"; "getvar"; "product"; "-s"; "abc"; "-i"; "0x1234"]
       = Done (QueueExecuted st3).
Proof.
  eexists; eexists; eexists.
  repeat (split; [reflexivity|]). reflexivity.
Qed.

(** C7, amended: the two filters change only at the options [-s] and
    [-i], and the loop takes these at the head of any round, before or
    after commands. A round on [-s] sets the serial filter to the next
    token, a round on [-i] sets the vendor id to the low 16 bits of what
    [strtoul] read, and a round on any other token leaves the filter as it
    was. *)
Theorem C7_filters_change_only_at_options :
  forall env st st',
    step env st = Next st' ->
    (if streq (arg 0 st) "-s" then serial st' = Some (arg 1 st)
     else serial st' = serial st)
    /\ (if streq (arg 0 st) "-i"
        then vendor_id st' = fst (Strtoul.strtoul env (arg 1 st)) mod 2 ^ 16
        else vendor_id st' = vendor_id st).
Proof.
  intros env st st' H.
  step_cases H;
    cbn [serial vendor_id skip set_argv set_serial set_vendor_id set_sz
         set_queue fst];
    repeat match goal with
    | E : streq ?a ?b = _ |- context [streq ?a ?b] => rewrite E
    end;
    repeat match goal with
    | |- context [if streq ?a ?b then _ else _] =>
        destruct (streq a b) eqn:?
    end;
    try (split; reflexivity);
    repeat match goal with
    | E : streq _ _ = true |- _ => apply String.eqb_eq in E
    end;
    congruence.
Qed.

Lemma C7_witness :
  step plain_env (mkState ["-s"; "abc"; "reboot"] None 0 77 [Erase "x"])
  = Next (mkState ["reboot"] (Some "abc") 0 77 [Erase "x"])
  /\ serial (mkState ["reboot"] (Some "abc") 0 77 [Erase "x"]) = Some "abc"
  /\ vendor_id (mkState ["reboot"] (Some "abc") 0 77 [Erase "x"]) = 0.
Proof.
  split; [reflexivity|].
  exact (C7_filters_change_only_at_options plain_env
           (mkState ["-s"; "abc"; "reboot"] None 0 77 [Erase "x"])
           (mkState ["reboot"] (Some "abc") 0 77 [Erase "x"])
           eq_refl).
Defined.

(** C8, as the specification states it, fails: after the token devices
    the run lists the devices and returns 0 whatever follows, so an
    unknown token or a getvar without its argument behind it raises no
    usage error. And the options [-s] and [-i], which are no commands of
    the table, are taken where a command may stand: reboot -s x runs to
    the end with status 0. *)
Lemma C8_counterexample :
  main plain_env ["fastboot"; "devices"; "bogus"] = Done DevicesListed
  /\ main plain_env ["fastboot"; "devices"; "getvar"] = Done DevicesListed
  /\ exit_status (main plain_env ["fastboot"; "devices"; "bogus"]) = Some 0
  /\ main plain_env ["fastboot"; "reboot"; "-s"; "x"]
     = Done (QueueExecuted (mkState [] (Some "x") 0 77 [Reboot]))
  /\ exit_status (main plain_env ["fastboot"; "reboot"; "-s"; "x"]) = Some 0.
Proof. repeat split. Qed.

(** C8, amended: when the first token is not devices and the loop
    reaches, with no fatal error before it, a round whose head token is
    none of the tokens the chain of [main] knows, or has fewer tokens left
    than its branch requires, the run ends in [usage()] with exit status 1
    and the queue built so far is not executed. The tokens the chain knows
    are the options [-s] and [-i] and the commands getvar, setvar,
    download, verify, flash, eraseall, erase, check, boot, continue, oem,
    reboot, powerdown, pass and fail ([required_tokens] lists them with
    the number of tokens each requires, itself included); devices is not
    among them. In particular getvar alone ends so, with nothing
    queued. *)
Theorem C8_unknown_or_short_command_is_usage_error :
  forall env prog args st,
    args <> [] ->
    streq (hd "" args) "devices" = false ->
    reaches env (initial env args) st ->
    bad_head st = true ->
    main env (prog :: args) = UsageExit
    /\ exit_status (main env (prog :: args)) = Some 1
    /\ main env [prog; "getvar"] = UsageExit.
Proof.
  intros env prog args st Hne Hd Hr Hb.
  assert (Hm : main env (prog :: args) = UsageExit).
  { unfold main. destruct args as [|first more]; [congruence|].
    cbn [hd] in Hd. rewrite Hd.
    rewrite (main_loop_reaches env _ _ Hr _ (S (List.length (argv st))))
      by (cbn [initial argv]; lia).
    cbn [main_loop]. rewrite (bad_head_usage env st Hb).
    destruct (argv st) eqn:E; [|reflexivity].
    unfold bad_head in Hb. now rewrite E in Hb. }
  rewrite Hm. repeat split.
Qed.

Lemma C8_witness :
  main plain_env ["fastboot"; "reboot"; "bogus"] = UsageExit
  /\ exit_status (main plain_env ["fastboot"; "reboot"; "bogus"]) = Some 1
  /\ main plain_env ["fastboot"; "getvar"] = UsageExit.
Proof.
  apply (C8_unknown_or_short_command_is_usage_error plain_env "fastboot"
           ["reboot"; "bogus"] (mkState ["bogus"] None 0 77 [Reboot])).
  - discriminate.
  - reflexivity.
  - apply (reaches_next plain_env _ (mkState ["bogus"] None 0 77 [Reboot]));
      [discriminate|reflexivity|apply reaches_here].
  - reflexivity.
Defined.

End ScannerClaims.

(** * Further properties of the code *)

(** ** [strip] *)

Section StripProperties.
Import CStr Shape.

Lemma skip_spaces_lead : forall s,
  exists lead,
    s = (lead ++ skip_spaces s)%string /\ all_space lead = true.
Proof.
  induction s as [|c t (lead & Hs & Hl)]; simpl.
  - now exists EmptyString.
  - destruct (isspace c) eqn:Hc.
    + exists (String c lead). simpl. rewrite Hc, Hl. split; [|reflexivity].
      now rewrite <- Hs.
    + now exists EmptyString.
Qed.

Lemma chop_spaces_trail : forall s,
  exists trail,
    s = (chop_spaces s ++ trail)%string /\ all_space trail = true.
Proof.
  induction s as [|c t (trail & Hs & Hl)]; simpl.
  - now exists EmptyString.
  - destruct (chop_spaces t) as [|d u] eqn:E.
    + simpl in Hs. subst t. destruct (isspace c) eqn:Hc.
      * exists (String c trail). simpl. now rewrite Hc, Hl.
      * exists trail. simpl. now split.
    + exists trail. simpl. split; [|exact Hl]. f_equal. exact Hs.
Qed.


Lemma all_space_chop : forall s, all_space s = true -> chop_spaces s = EmptyString.
Proof.
  induction s as [|c t IH]; simpl; intros H; [reflexivity|].
  apply andb_prop in H as [Hc Ht]. now rewrite (IH Ht), Hc.
Qed.

Lemma all_space_skip : forall s, all_space s = true -> skip_spaces s = EmptyString.
Proof.
  induction s as [|c t IH]; simpl; intros H; [reflexivity|].
  apply andb_prop in H as [Hc Ht]. now rewrite Hc, IH.
Qed.

Lemma strip_split : forall s,
  exists lead trail,
    s = (lead ++ strip s ++ trail)%string
    /\ all_space lead = true /\ all_space trail = true.
Proof.
  intros s. unfold strip.
  destruct (skip_spaces_lead s) as (lead & Hs & Hl).
  destruct (chop_spaces_trail (skip_spaces s)) as (trail & Ht & Htl).
  exists lead, trail. split; [|now split].
  now rewrite <- Ht.
Qed.


(** X2: a string of white space only strips to the empty string, and
    [strip] gives the empty string for no other argument. *)
Theorem strip_empty_iff_all_space : forall s,
  strip s = EmptyString <-> all_space s = true.
Proof.
  intros s. split.
  - intros H.
    destruct (strip_split s) as (lead & trail & Hs & Hl & Ht).
    rewrite H in Hs. simpl in Hs. rewrite Hs.
    clear - Hl Ht. induction lead as [|c l IH]; simpl in *; [exact Ht|].
    apply andb_prop in Hl as [Hc Hl]. now rewrite Hc, IH.
  - intros H. unfold strip. now rewrite (all_space_skip s H).
Qed.

End StripProperties.

(** ** Trimmed names and values *)

Section TrimmedValues.
Import CStr Engine Requirements Shape Samples.





End TrimmedValues.

(** ** The requirements parser *)

Section ParserProperties.
Import CStr Engine Requirements Shape Samples.

Lemma dup_values_some : forall env vals out,
  dup_values env vals = Some out -> out = List.map strip vals.
Proof.
  intros env vals. induction vals as [|v l IH]; simpl; intros out H.
  - now inversion H.
  - destruct (malloc_ok env (strlen (strip v) + 1)); [|discriminate].
    destruct (dup_values env l) as [o|]; [|discriminate].
    inversion H; subst. now rewrite (IH o eq_refl).
Qed.

(** What a line does to the queue does not depend on the queue. *)
Lemma line_appends : forall env line q,
  setup_requirement_line env line q
  = (fst (setup_requirement_line env line []),
     (q ++ snd (setup_requirement_line env line []))%list).
Proof.
  intros env line q. unfold setup_requirement_line.
  destruct (read_keyword line) as [name invert].
  destruct (strchr name "=") as [[nm val0]|]; cbn [fst snd];
    [|now rewrite List.app_nil_r].
  destruct (malloc_ok env _); cbn [fst snd]; [|now rewrite List.app_nil_r].
  destruct (dup_values env _); cbn [fst snd]; [|now rewrite List.app_nil_r].
  reflexivity.
Qed.

Lemma split_values_length : forall left text,
  (1 <= List.length (split_values left text) <= S left)%nat.
Proof.
  intros left text.
  destruct (split_values_spec left text) as (H & _). rewrite H. lia.
Qed.

(** A line returns 0 or -1; it queues nothing or one well-formed record,
    and nothing when it returns -1. *)
Lemma line_result : forall env line,
  let '(r, rs) := setup_requirement_line env line [] in
  (r = 0 /\ (rs = [] \/ exists rec, rs = [rec] /\ record_ok rec = true))
  \/ (r = -1 /\ rs = []).
Proof.
  intros env line. unfold setup_requirement_line.
  destruct (read_keyword line) as [name invert].
  destruct (strchr name "=") as [[nm val0]|]; [|left; now split; [|left]].
  destruct (malloc_ok env _); [|right; now split].
  destruct (dup_values env _) as [out|] eqn:E; [|right; now split].
  left. split; [reflexivity|]. right. eexists. split; [reflexivity|].
  apply dup_values_some in E. subst out.
  pose proof (split_values_length (MAX_OPTIONS - 1) val0) as Hl.
  change (S (MAX_OPTIONS - 1)) with 32%nat in Hl.
  unfold record_ok. rewrite !List.length_map.
  rewrite Z.eqb_refl.
  replace (1 <=? Z.of_nat (List.length (split_values (MAX_OPTIONS - 1) val0)))
    with true by (symmetry; apply Z.leb_le; lia).
  replace (Z.of_nat (List.length (split_values (MAX_OPTIONS - 1) val0)) <=? 32)
    with true by (symmetry; apply Z.leb_le; lia).
  cbn [andb].
  assert (Hname :
    negb (streq (if streq (strip (strip nm)) "board" then "product"
                 else strip (strip nm)) "board")
    && streq (strip (if streq (strip (strip nm)) "board" then "product"
                     else strip (strip nm)))
         (if streq (strip (strip nm)) "board" then "product"
          else strip (strip nm)) = true).
  { destruct (streq (strip (strip nm)) "board") eqn:Eb; [reflexivity|].
    rewrite Eb. cbn [negb andb]. rewrite !strip_idem. apply String.eqb_refl. }
  rewrite Hname. cbn [andb].
  apply forallb_forall. intros v Hv.
  apply List.in_map_iff in Hv as (w & <- & Hw).
  apply List.in_map_iff in Hw as (x & <- & _).
  rewrite !strip_idem. apply String.eqb_refl.
Qed.

(** The loop over the buffer, on any queue, in terms of the loop on the
    empty queue. *)
Lemma scan_lines_appends : forall env rest line q,
  scan_lines env rest line q
  = match scan_lines env rest line [] with
    | Done rs => Done (q ++ rs)%list
    | UsageExit => UsageExit
    | Died msg => Died msg
    | Undefined => Undefined
    | OutOfFuel => OutOfFuel
    end.
Proof.
  intros env rest. induction rest as [|c t IH]; intros line q; simpl.
  - now rewrite List.app_nil_r.
  - destruct (Ascii.eqb c LF); [|apply IH].
    rewrite (line_appends env (cstr line) q).
    destruct (setup_requirement_line env (cstr line) []) as [r rs].
    cbn [fst snd]. destruct (r =? 0); [|reflexivity].
    rewrite (IH "" (q ++ rs)%list), (IH "" rs).
    destruct (scan_lines env t "" []); try reflexivity.
    now rewrite List.app_assoc.
Qed.

(** X3: the parser only appends to the queue it is given, and neither
    what it appends nor how it ends depends on that queue: parsing on a
    queue is parsing on the empty queue, with the records put behind the
    queue. *)
Theorem setup_requirements_appends : forall env data q,
  setup_requirements env data q
  = and_then (setup_requirements env data [])
      (fun rs => Done (q ++ rs)%list).
Proof.
  intros env data q. unfold setup_requirements.
  rewrite (scan_lines_appends env data "" q).
  now destruct (scan_lines env data "" []).
Qed.

Lemma scan_lines_outcomes : forall env rest line q,
  (exists rs, scan_lines env rest line q = Done (q ++ rs)%list
              /\ forallb record_ok rs = true)
  \/ (scan_lines env rest line q = Died "out of memory"
      /\ exists n, malloc_ok env n = false).
Proof.
  intros env rest. induction rest as [|c t IH]; intros line q; simpl.
  - left. exists []. now rewrite List.app_nil_r.
  - destruct (Ascii.eqb c LF); [|apply IH].
    rewrite (line_appends env (cstr line) q).
    pose proof (line_result env (cstr line)) as Hr.
    pose proof (eq_refl (setup_requirement_line env (cstr line) [])) as Hd.
    unfold setup_requirement_line at 2 in Hd.
    destruct (setup_requirement_line env (cstr line) []) as [r rs].
    cbn [fst snd].
    destruct Hr as [[-> Hrs]|[-> ->]].
    + cbn [Z.eqb]. destruct (IH "" (q ++ rs)%list)
        as [(rs' & -> & Hok)|[-> Hm]]; [left|right; now split].
      exists (rs ++ rs')%list. split; [now rewrite List.app_assoc|].
      rewrite forallb_app, Hok.
      destruct Hrs as [->|(rec & -> & Hrec)]; [reflexivity|].
      simpl. now rewrite Hrec.
    + right. split; [reflexivity|].
      destruct (read_keyword (cstr line)) as [name invert].
      destruct (strchr name "=") as [[nm val0]|]; [|discriminate].
      destruct (malloc_ok env (sizeof_ptr env * _)) eqn:E1;
        [|eexists; exact E1].
      clear - Hd.
      destruct (dup_values env _) as [out|] eqn:E; [discriminate|].
      clear Hd. revert E.
      generalize (List.map strip (split_values (MAX_OPTIONS - 1) val0)).
      induction l as [|v l IHl]; simpl; [discriminate|].
      destruct (malloc_ok env (strlen (strip v) + 1)) eqn:E2;
        [|intros _; eexists; exact E2].
      destruct (dup_values env l); [discriminate|]. intros _. now apply IHl.
Qed.


(** X5: when every allocation succeeds the parser returns, whatever the
    bytes of the buffer are. *)
Theorem setup_requirements_total_with_memory : forall env data q,
  (forall n, malloc_ok env n = true) ->
  exists rs, setup_requirements env data q = Done (q ++ rs)%list.
Proof.
  intros env data q H.
  destruct (scan_lines_outcomes env data "" q)
    as [(rs & Hs & _)|[_ (n & Hn)]].
  - now exists rs.
  - rewrite H in Hn. discriminate.
Qed.

Lemma setup_requirements_total_witness :
  exists rs,
    setup_requirements plain_env ("=" ++ nl ++ "|=|" ++ nl ++ "x") []
    = Done ([] ++ rs)%list.
Proof.
  apply (setup_requirements_total_with_memory plain_env
           ("=" ++ nl ++ "|=|" ++ nl ++ "x") []).
  intros n. reflexivity.
Defined.

Lemma scan_lines_compose : forall env b a line q,
  whole_lines a = true ->
  (a = EmptyString -> line = EmptyString) ->
  scan_lines env (a ++ b) line q
  = and_then (scan_lines env a line q) (scan_lines env b EmptyString).
Proof.
  intros env b. induction a as [|c p IH]; intros line q Hw Hl.
  - rewrite (Hl eq_refl). reflexivity.
  - change (scan_lines env (String c (p ++ b)) line q
            = and_then (scan_lines env (String c p) line q)
                (scan_lines env b "")).
    cbn [scan_lines].
    assert (Hp : whole_lines p = true).
    { destruct p; [reflexivity|exact Hw]. }
    destruct (Ascii.eqb c LF) eqn:Ec.
    + destruct (setup_requirement_line env (cstr line) q) as [r q'].
      destruct (r =? 0); [|reflexivity]. now apply IH.
    + apply IH; [exact Hp|].
      intros ->. simpl in Hw. congruence.
Qed.

(** X6: parsing composes over whole lines: when a buffer ends with a
    newline (or is empty), parsing it followed by a second buffer is
    parsing it, and then parsing the second buffer on the queue it
    returned; a failure in the first part is the failure of the whole. *)
Theorem setup_requirements_compose : forall env a b q,
  whole_lines a = true ->
  setup_requirements env (a ++ b) q
  = and_then (setup_requirements env a q) (setup_requirements env b).
Proof.
  intros env a b q Hw. unfold setup_requirements.
  apply scan_lines_compose; auto.
Qed.

Lemma setup_requirements_compose_witness :
  setup_requirements plain_env (("a=1" ++ nl) ++ ("reject b=2|3" ++ nl)) []
  = and_then (setup_requirements plain_env ("a=1" ++ nl) [])
      (setup_requirements plain_env ("reject b=2|3" ++ nl)).
Proof.
  apply (setup_requirements_compose plain_env ("a=1" ++ nl)
           ("reject b=2|3" ++ nl) []).
  reflexivity.
Defined.



Lemma cstr_stops_at_NUL : forall a b,
  cstr (a ++ String NUL b) = cstr a.
Proof.
  induction a as [|c t IH]; intros b; simpl; [reflexivity|].
  destruct (Ascii.eqb c NUL); [reflexivity|]. now rewrite IH.
Qed.

(** X8: a NUL byte hides the rest of its line: whatever stands between
    a NUL and the next newline has no effect on what the buffer yields. *)
Theorem bytes_after_NUL_are_ignored : forall env pre line junk post q,
  whole_lines pre = true ->
  contains LF line = false ->
  contains LF junk = false ->
  setup_requirements env (pre ++ (line ++ String NUL junk) ++ nl ++ post) q
  = setup_requirements env (pre ++ line ++ nl ++ post) q.
Proof.
  intros env pre line junk post q Hw Hl Hj.
  unfold setup_requirements.
  rewrite !(scan_lines_compose env _ pre "" q Hw (fun _ => eq_refl)).
  destruct (scan_lines env pre "" q) as [q'| | | |]; try reflexivity.
  cbn [and_then].
  assert (Hc : contains LF (line ++ String NUL junk) = false).
  { clear - Hl Hj. induction line as [|c t IH]; simpl in *; [exact Hj|].
    apply orb_false_iff in Hl as [Hc Ht]. now rewrite Hc, IH. }
  rewrite (scan_lines_no_newline env _ (nl ++ post) "" q' Hc).
  rewrite (scan_lines_no_newline env _ (nl ++ post) "" q' Hl).
  cbn [append nl scan_lines]. rewrite Ascii.eqb_refl.
  now rewrite cstr_stops_at_NUL.
Qed.

Lemma bytes_after_NUL_witness :
  setup_requirements plain_env
    (("a=1" ++ nl) ++ ("b=2" ++ String NUL "|3=4") ++ nl ++ "c=5" ++ nl) []
  = setup_requirements plain_env
      (("a=1" ++ nl) ++ "b=2" ++ nl ++ "c=5" ++ nl) [].
Proof.
  apply (bytes_after_NUL_are_ignored plain_env ("a=1" ++ nl) "b=2" "|3=4"
           ("c=5" ++ nl) []); reflexivity.
Defined.




End ParserProperties.

(** ** The file loader *)

Section LoaderProperties.
Import CStr Loader Samples.

Lemma substring_prefix_length : forall s n,
  (n <= String.length s)%nat ->
  String.length (String.substring 0 n s) = n.
Proof.
  induction s as [|c t IH]; intros [|n] H; simpl in *; try reflexivity.
  - lia.
  - rewrite IH; [reflexivity|lia].
Qed.

Lemma to_int_range : forall n,
  - 2 ^ 31 <= to_int n < 2 ^ 31.
Proof.
  intros n. unfold to_int.
  pose proof (Z.mod_pos_bound (n + 2 ^ 31) (2 ^ 32) ltac:(lia)). lia.
Qed.

Lemma to_int_below : forall n, 0 <= n -> to_int n <= n.
Proof.
  intros n H. unfold to_int.
  pose proof (Z.mod_le (n + 2 ^ 31) (2 ^ 32) ltac:(lia) ltac:(lia)). lia.
Qed.

(** X10: what [load_file] returns is consistent: the size stored is the
    length of the data returned, it is not negative and fits an [int], the
    file was readable, and for a file shorter than 2^31 bytes the data is
    the whole file. *)
Theorem load_file_result : forall env fn data n,
  load_file env fn = Some (data, n) ->
  n = strlen data
  /\ 0 <= n < 2 ^ 31
  /\ exists bytes,
       files env fn = Some bytes
       /\ malloc_ok env n = true
       /\ (strlen bytes < 2 ^ 31 -> data = bytes).
Proof.
  intros env fn data n H. unfold load_file in H.
  destruct (files env fn) as [bytes|] eqn:Ef; [|discriminate].
  destruct (to_int (strlen bytes) <? 0) eqn:Eneg; [discriminate|].
  destruct (malloc_ok env (to_int (strlen bytes))) eqn:Em; [|discriminate].
  inversion H; subst. clear H. apply Z.ltb_ge in Eneg.
  pose proof (to_int_range (strlen bytes)) as Hr.
  pose proof (to_int_below (strlen bytes) (strlen_nonneg bytes)) as Hb.
  split; [|split; [lia|]].
  - unfold strlen at 2. rewrite substring_prefix_length.
    + now rewrite Z2Nat.id.
    + unfold strlen in *. lia.
  - exists bytes. split; [reflexivity|]. split; [exact Em|].
    intros Hs.
    assert (Hi : to_int (strlen bytes) = strlen bytes).
    { unfold to_int. pose proof (strlen_nonneg bytes).
      rewrite Z.mod_small; lia. }
    rewrite Hi. unfold strlen. now rewrite Nat2Z.id, substring_all.
Qed.

Lemma load_file_result_witness :
  3 = strlen "abc"
  /\ 0 <= 3 < 2 ^ 31
  /\ exists bytes,
       files plain_env "img.bin" = Some bytes
       /\ malloc_ok plain_env 3 = true
       /\ (strlen bytes < 2 ^ 31 -> "abc" = bytes).
Proof.
  exact (load_file_result plain_env "img.bin" "abc" 3 eq_refl).
Defined.

End LoaderProperties.

(** ** The scanner loop *)

Section LoopProperties.
Import CStr Engine Scanner Table Shape Samples.

Lemma sizes_follow_app : forall q cur ops,
  sizes_follow cur (q ++ ops)%list
  = sizes_follow cur q && sizes_follow (last_size cur q) ops.
Proof.
  induction q as [|op q IH]; intros cur ops; [reflexivity|].
  destruct op; cbn [List.app sizes_follow last_size]; rewrite IH;
    try reflexivity; now rewrite andb_assoc.
Qed.

Lemma last_size_app : forall q cur ops,
  last_size cur (q ++ ops)%list = last_size (last_size cur q) ops.
Proof.
  induction q as [|op q IH]; intros cur ops; [reflexivity|].
  destruct op; cbn [List.app last_size]; now rewrite IH.
Qed.

Lemma do_oem_command_queue : forall a q r q',
  Oem.do_oem_command a q = Some (r, q') ->
  (q' = q \/ exists c, q' = (q ++ [GenericCommand c ""])%list)
  /\ (q' = q \/ (2 <= List.length a)%nat).
Proof.
  intros a q r q' H. unfold Oem.do_oem_command in H.
  destruct (Z.of_nat (List.length a) <=? 1) eqn:E.
  - inversion H; subst. split; now left.
  - apply Z.leb_gt in E.
    destruct (Oem.oem_loop "" a) as [c|]; inversion H; subst.
    split; right; [now exists c|lia].
Qed.

Ltac bounds :=
  unfold argc in *;
  repeat match goal with
  | E : (_ <? _) = true |- _ => apply Z.ltb_lt in E
  | E : (_ <? _) = false |- _ => apply Z.ltb_ge in E
  end.

(** One round of the loop: the entries it appends, how they stand to
    [sz], and how many tokens it consumes for them. *)
Lemma step_appends : forall env st st',
  argv st <> [] ->
  step env st = Next st' ->
  exists ops,
    queue st' = (queue st ++ ops)%list
    /\ sizes_follow (sz st) ops = true
    /\ sz st' = last_size (sz st) ops
    /\ (List.length ops + List.length (argv st') <= List.length (argv st))%nat.
Proof.
  intros env st st' Hne H.
  assert (Hpos : (1 <= List.length (argv st))%nat).
  { destruct (argv st); [congruence|cbn [List.length]; lia]. }
  step_cases H;
    cbn [argv queue sz skip set_argv set_queue set_sz set_serial
         set_vendor_id];
    unfold fb_queue_download, fb_queue_flash, fb_queue_verify,
      fb_queue_erase, fb_queue_check, fb_queue_command, fb_queue_display,
      fb_queue_set, fb_queue_reboot, enqueue;
    rewrite <- ?List.app_assoc; cbn [List.app];
    repeat match goal with
    | E : Loader.load_file _ _ = Some _ |- _ =>
        apply load_file_result in E; destruct E as (E & _ & _)
    end;
    try (match goal with
         | E : Oem.do_oem_command _ _ = Some _ |- _ =>
             pose proof (do_oem_command_returns_zero _ _ _ _ E); subst;
             apply do_oem_command_queue in E;
             destruct E as [[->|(c & ->)] [Hq|Hl]]
         end);
    first
      [ exists (@nil QueuedOperation);
        split; [now rewrite List.app_nil_r|]
      | eexists; split; [reflexivity|] ];
    cbn [sizes_follow last_size List.length];
    rewrite ?Z.eqb_refl; subst;
    rewrite ?Z.eqb_refl; cbn [andb firstn Z.to_nat List.length];
    (split; [reflexivity|split; [reflexivity|]]);
    rewrite ?List.length_skipn; bounds; try lia.
Qed.

Lemma reaches_appends : forall env st st',
  reaches env st st' ->
  exists ops,
    queue st' = (queue st ++ ops)%list
    /\ sizes_follow (sz st) ops = true
    /\ sz st' = last_size (sz st) ops
    /\ (List.length ops + List.length (argv st') <= List.length (argv st))%nat.
Proof.
  intros env st st' H.
  induction H as [st|st st1 st2 Hne Hs Hr (ops2 & Hq2 & Hf2 & Hz2 & Hl2)].
  - exists []. rewrite List.app_nil_r. cbn. repeat split; lia.
  - destruct (step_appends env st st1 Hne Hs) as (ops1 & Hq1 & Hf1 & Hz1 & Hl1).
    exists (ops1 ++ ops2)%list.
    rewrite Hq2, Hq1, List.app_assoc, sizes_follow_app, last_size_app.
    rewrite <- Hz1, Hf1, Hf2, Hz2, List.length_app.
    repeat split; lia.
Qed.

Lemma main_loop_done : forall env f st st',
  main_loop env f st = Done (QueueExecuted st') ->
  reaches env st st' /\ argv st' = [].
Proof.
  intros env f. induction f as [|k IH]; intros st st' H; simpl in H.
  - destruct (argv st) eqn:E; [|discriminate].
    inversion H; subst. split; [apply reaches_here|exact E].
  - destruct (argv st) as [|a l] eqn:E.
    + inversion H; subst. split; [apply reaches_here|exact E].
    + destruct (step env st) as [st1|o] eqn:Es.
      * destruct (IH st1 st' H) as [Hr Ha]. split; [|exact Ha].
        apply (reaches_next env st st1 st'); [congruence|exact Es|exact Hr].
      * subst o. step_cases Es.
Qed.

(** X11: the loop only ever appends to the queue, and never more
    entries than the tokens it has consumed for them. *)
Theorem queue_only_grows : forall env st st',
  reaches env st st' ->
  exists ops,
    queue st' = (queue st ++ ops)%list
    /\ (List.length ops + List.length (argv st') <= List.length (argv st))%nat.
Proof.
  intros env st st' H.
  destruct (reaches_appends env st st' H) as (ops & Hq & _ & _ & Hl).
  now exists ops.
Qed.

Lemma queue_only_grows_witness :
  exists ops,
    queue (mkState ["reboot"] None 0 3
             [Erase "x"; Download "boot" "abc" 3; Flash "boot" 3])
    = (queue (mkState ["flash"; "boot"; "img.bin"; "reboot"] None 0 77
                [Erase "x"]) ++ ops)%list
    /\ (List.length ops + 1 <= 4)%nat.
Proof.
  apply (queue_only_grows plain_env
           (mkState ["flash"; "boot"; "img.bin"; "reboot"] None 0 77
              [Erase "x"])
           (mkState ["reboot"] None 0 3
              [Erase "x"; Download "boot" "abc" 3; Flash "boot" 3])).
  apply (reaches_next plain_env _
           (mkState ["reboot"] None 0 3
              [Erase "x"; Download "boot" "abc" 3; Flash "boot" 3]));
    [discriminate|reflexivity|apply reaches_here].
Defined.

(** X12: in a queue that reaches [fb_execute_queue], every token has
    been consumed, every download carries the length of its data, and
    every flash and verify entry carries the size of the download nearest
    before it in the queue, or the unset initial value of [sz] when no
    download comes before it. *)
Theorem executed_queue_sizes : forall env argv0 st,
  main env argv0 = Done (QueueExecuted st) ->
  argv st = []
  /\ sizes_follow (stack_sz env) (queue st) = true
  /\ sz st = last_size (stack_sz env) (queue st)
  /\ (List.length (queue st) < List.length argv0)%nat.
Proof.
  intros env argv0 st H. unfold main in H.
  destruct argv0 as [|prog [|first more]]; try discriminate.
  destruct (streq first "devices"); [discriminate|].
  apply main_loop_done in H as [Hr Ha].
  destruct (reaches_appends env _ _ Hr) as (ops & Hq & Hf & Hz & Hl).
  cbn [initial queue sz argv List.app] in *.
  rewrite Hq. repeat split; try assumption.
  cbn [List.length] in *. lia.
Qed.

Lemma executed_queue_sizes_witness :
  sizes_follow 77
    [Download "data" "abc" 3; Erase "x"; Flash "b" 3] = true
  /\ main plain_env
       ["fastboot"; "download"; "img.bin"; "erase"; "x"; "flash"; "b"]
     = Done (QueueExecuted
               (mkState [] None 0 3
                  [Download "data" "abc" 3; Erase "x"; Flash "b" 3])).
Proof.
  split; [|reflexivity].
  exact (proj1 (proj2
    (executed_queue_sizes plain_env
       ["fastboot"; "download"; "img.bin"; "erase"; "x"; "flash"; "b"]
       (mkState [] None 0 3
          [Download "data" "abc" 3; Erase "x"; Flash "b" 3])
       eq_refl))).
Defined.

End LoopProperties.

(** ** The branches of the scanner, at any state of the loop *)

Ltac run_chain :=
  repeat match goal with
  | |- context [CStr.streq ?a ?b] =>
      let r := eval vm_compute in (CStr.streq a b) in
      change (CStr.streq a b) with r
  end;
  cbv iota.

Ltac count_tokens :=
  repeat match goal with
  | |- context [if ?a <? ?b then _ else _] =>
      let E := fresh "E" in
      destruct (a <? b) eqn:E;
      [apply Z.ltb_lt in E|apply Z.ltb_ge in E];
      cbn [List.length] in E; try lia
  end.

Ltac open_branch Ha :=
  unfold Scanner.step, Scanner.arg, Scanner.require, Scanner.argc,
    Scanner.skip, Scanner.with_optional_file, Scanner.set_argv,
    Scanner.set_queue, Scanner.set_sz;
  rewrite Ha;
  cbn [nth Scanner.argv Scanner.serial Scanner.vendor_id Scanner.sz
       Scanner.queue skipn];
  run_chain; count_tokens.

Section BranchProperties.
Import CStr Engine Scanner Table Shape SpecWords Samples.

(** X13: at any state of the loop, a flash or verify with a third token,
    a boot with a second token and a download take that token as a file
    name, whatever it is. When the file loads, [sz] becomes its size and
    the download is queued immediately before the command's own entry
    (under the partition name, under "boot" for boot, under "data" for
    download). *)
Theorem file_commands_queue_download_first :
  forall env st p f rest data n,
    Loader.load_file env f = Some (data, n) ->
    (argv st = "flash" :: p :: f :: rest ->
       step env st
       = Next (mkState rest (serial st) (vendor_id st) n
                 (queue st ++ [Download p data n; Flash p n])%list))
    /\ (argv st = "verify" :: p :: f :: rest ->
          step env st
          = Next (mkState rest (serial st) (vendor_id st) n
                    (queue st ++ [Download p data n; Verify p n])%list))
    /\ (argv st = "boot" :: f :: rest ->
          step env st
          = Next (mkState rest (serial st) (vendor_id st) n
                    (queue st ++ [Download "boot" data n;
                                  GenericCommand "boot" "booting"])%list))
    /\ (argv st = "download" :: f :: rest ->
          step env st
          = Next (mkState rest (serial st) (vendor_id st) n
                    (queue st ++ [Download "data" data n])%list)).
Proof.
  intros env st p f rest data n Hl.
  repeat split; intros Ha; open_branch Ha; rewrite Hl;
    cbn [argv serial vendor_id sz queue];
    unfold fb_queue_download, fb_queue_flash, fb_queue_verify,
      fb_queue_command, enqueue;
    rewrite <- ?List.app_assoc; reflexivity.
Qed.

Lemma file_commands_witness :
  step plain_env (mkState ["flash"; "boot"; "img.bin"; "reboot"] None 0 77
                    [Erase "x"])
  = Next (mkState ["reboot"] None 0 3
            ([Erase "x"] ++ [Download "boot" "abc" 3; Flash "boot" 3])%list).
Proof.
  exact (proj1 (file_commands_queue_download_first plain_env
                  (mkState ["flash"; "boot"; "img.bin"; "reboot"] None 0 77
                     [Erase "x"])
                  "boot" "img.bin" ["reboot"] "abc" 3 eq_refl) eq_refl).
Defined.

(** X14: when the file cannot be loaded, each of the four commands ends
    the run at once in [die] with the message that names the path; nothing
    is queued for the command and no token after it is read. *)
Theorem unloadable_file_is_fatal :
  forall env st p f rest,
    Loader.load_file env f = None ->
    argv st = "flash" :: p :: f :: rest
    \/ argv st = "verify" :: p :: f :: rest
    \/ argv st = "boot" :: f :: rest
    \/ argv st = "download" :: f :: rest ->
    step env st = Halt (Died ("cannot load '" ++ f ++ "'" ++ nl))
    /\ forall fuel,
         main_loop env (S fuel) st
         = Died ("cannot load '" ++ f ++ "'" ++ nl).
Proof.
  intros env st p f rest Hl Ha.
  assert (Hs : step env st = Halt (Died ("cannot load '" ++ f ++ "'" ++ nl))).
  { destruct Ha as [Ha|[Ha|[Ha|Ha]]]; open_branch Ha; now rewrite Hl. }
  split; [exact Hs|].
  intros fuel. cbn [main_loop]. rewrite Hs.
  destruct Ha as [Ha|[Ha|[Ha|Ha]]]; now rewrite Ha.
Qed.

Lemma unloadable_file_witness :
  step plain_env (mkState ["boot"; "reboot"] None 0 77 [])
  = Halt (Died ("cannot load '" ++ "reboot" ++ "'" ++ nl))
  /\ forall fuel,
       main_loop plain_env (S fuel) (mkState ["boot"; "reboot"] None 0 77 [])
       = Died ("cannot load '" ++ "reboot" ++ "'" ++ nl).
Proof.
  apply (unloadable_file_is_fatal plain_env
           (mkState ["boot"; "reboot"] None 0 77 []) "" "reboot" []).
  - reflexivity.
  - right. right. left. reflexivity.
Defined.

(** X15: a flash or a verify without a file name, and a boot without
    one, can only be the last command of the line. With the partition as
    the last token they queue their entry with the current [sz] and leave
    no token; and whenever a round on flash, verify or boot has queued one
    entry only, that is no download before it, no token is left after
    it. *)
Theorem commands_without_file_end_the_line :
  forall env st p,
    (argv st = ["flash"; p] ->
       step env st
       = Next (mkState [] (serial st) (vendor_id st) (sz st)
                 (queue st ++ [Flash p (sz st)])%list))
    /\ (argv st = ["verify"; p] ->
          step env st
          = Next (mkState [] (serial st) (vendor_id st) (sz st)
                    (queue st ++ [Verify p (sz st)])%list))
    /\ (argv st = ["boot"] ->
          step env st
          = Next (mkState [] (serial st) (vendor_id st) (sz st)
                    (queue st ++ [GenericCommand "boot" "booting"])%list))
    /\ (forall st',
          step env st = Next st' ->
          streq (arg 0 st) "flash" || streq (arg 0 st) "verify"
          || streq (arg 0 st) "boot" = true ->
          List.length (queue st') = S (List.length (queue st)) ->
          argv st' = []).
Proof.
  intros env st p.
  split; [|split; [|split]];
    try (intros Ha; open_branch Ha; reflexivity).
  intros st' H Hc Hl.
  assert (Hshort : forall n : nat,
            (List.length (argv st) <= n)%nat -> skipn n (argv st) = []).
  { intros n Hn. apply List.skipn_all2. exact Hn. }
  step_cases H;
    repeat match goal with
    | E : streq (arg 0 st) _ = true |- _ =>
        apply String.eqb_eq in E; rewrite E in Hc
    end;
    try discriminate Hc;
    cbn [argv queue skip set_argv set_queue set_sz] in *;
    unfold fb_queue_download, fb_queue_flash, fb_queue_verify,
      fb_queue_command, enqueue in Hl;
    rewrite ?List.length_app in Hl; cbn [List.length] in Hl;
    try lia;
    apply Hshort; unfold argc in *;
    repeat match goal with
    | E : (_ <? _) = false |- _ => apply Z.ltb_ge in E
    end; lia.
Qed.

Lemma commands_without_file_witness :
  step plain_env (mkState ["verify"; "kernel"] None 0 3
                    [Download "data" "abc" 3])
  = Next (mkState [] None 0 3
            ([Download "data" "abc" 3] ++ [Verify "kernel" 3])%list).
Proof.
  exact (proj1 (proj2 (commands_without_file_end_the_line plain_env
                         (mkState ["verify"; "kernel"] None 0 3
                            [Download "data" "abc" 3]) "kernel")) eq_refl).
Defined.

(** X16: devices is a command only as the first token: there it ends
    the run with status 0 whatever follows, and anywhere later it is an
    unknown token that ends the run in [usage()]. *)
Theorem devices_only_as_first_token :
  forall env prog rest,
    main env (prog :: "devices" :: rest) = Done DevicesListed
    /\ (forall st, argv st = "devices" :: rest ->
          step env st = Halt UsageExit).
Proof.
  intros env prog rest. split; [reflexivity|].
  intros st Ha. apply bad_head_usage. unfold bad_head. now rewrite Ha.
Qed.

Lemma oem_loop_overflows : forall toks command,
  toks <> [] ->
  256 <= strlen (command ++ String.concat " " toks) ->
  Oem.oem_loop command toks = None.
Proof.
  induction toks as [|a rest IH]; intros command Hne Hlen; [congruence|].
  cbn [Oem.oem_loop]. unfold strcat at 1.
  destruct (strlen (command ++ a) <? 256) eqn:E1; [|reflexivity].
  apply Z.ltb_lt in E1.
  destruct rest as [|b rest']; [cbn [String.concat] in Hlen; lia|].
  remember (b :: rest') as rest eqn:Er.
  assert (Hc : String.concat " " (a :: rest)
               = (a ++ " " ++ String.concat " " rest)%string).
  { subst rest. reflexivity. }
  rewrite Hc in Hlen. subst rest. unfold strcat at 1.
  destruct (strlen ((command ++ a) ++ " ") <? 256) eqn:E2; [|reflexivity].
  apply IH; [discriminate|].
  now rewrite !string_app_assoc in *.
Qed.

(** X17: at any state of the loop, oem followed by at least one token
    takes every token that is left: when the tokens from oem on, joined
    with single spaces, are shorter than 256 characters they are queued as
    one command with an empty message and no token remains; when they are
    not, the 256-byte buffer is overrun. *)
Theorem oem_takes_the_rest_of_the_line :
  forall env st args,
    args <> [] ->
    argv st = "oem" :: args ->
    step env st
    = if strlen (String.concat " " ("oem" :: args)) <? 256
      then Next (mkState [] (serial st) (vendor_id st) (sz st)
                   (queue st
                    ++ [GenericCommand (String.concat " " ("oem" :: args))
                          ""])%list)
      else Halt Undefined.
Proof.
  intros env st args Hne Ha.
  unfold step, arg. rewrite Ha. cbn [nth]. run_chain.
  unfold Oem.do_oem_command.
  replace (Z.of_nat (List.length ("oem" :: args)) <=? 1) with false
    by (symmetry; apply Z.leb_gt; destruct args; [congruence|];
        cbn [List.length]; lia).
  destruct (strlen (String.concat " " ("oem" :: args)) <? 256) eqn:E.
  - apply Z.ltb_lt in E.
    rewrite (oem_loop_joins ("oem" :: args) "") by
      (try discriminate; exact E).
    reflexivity.
  - apply Z.ltb_ge in E.
    rewrite (oem_loop_overflows ("oem" :: args) "") by
      (try discriminate; exact E).
    reflexivity.
Qed.

Lemma oem_takes_the_rest_witness :
  step plain_env (mkState ["oem"; "reboot"; "-s"; "x"] None 0 77 [Erase "x"])
  = Next (mkState [] None 0 77
            ([Erase "x"] ++ [GenericCommand "oem reboot -s x" ""])%list).
Proof.
  exact (oem_takes_the_rest_of_the_line plain_env
           (mkState ["oem"; "reboot"; "-s"; "x"] None 0 77 [Erase "x"])
           ["reboot"; "-s"; "x"] ltac:(discriminate) eq_refl).
Defined.

Lemma scan_digits_nonneg : forall base max s acc ovf,
  0 <= base -> 0 <= acc ->
  0 <= fst (fst (Strtoul.scan_digits base max s acc ovf)).
Proof.
  intros base max s. induction s as [|c t IH]; intros acc ovf Hb Ha;
    cbn [Strtoul.scan_digits]; [exact Ha|].
  destruct (Strtoul.digit_val c) as [d|] eqn:Ed; [|exact Ha].
  apply digit_val_range in Ed as (Hd & _).
  destruct (d <? base); [|exact Ha].
  destruct (ovf || (max <? acc * base + d)); apply IH; nia.
Qed.

Lemma strtoul_nonneg : forall env s,
  32 <= ulong_bits env -> 0 <= fst (Strtoul.strtoul env s).
Proof.
  intros env s Hw. unfold Strtoul.strtoul.
  destruct (Strtoul.read_sign (skip_spaces s)) as [neg s2].
  assert (Hbase : 0 <= fst (Strtoul.read_base s2)).
  { unfold Strtoul.read_base. destruct s2 as [|z t]; [cbn; lia|].
    destruct (Ascii.eqb z "0"); [|cbn; lia].
    destruct t as [|x [|h u]]; try (cbn; lia).
    destruct ((Ascii.eqb x "x" || Ascii.eqb x "X") && Strtoul.is_digit 16 h);
      cbn; lia. }
  destruct (Strtoul.read_base s2) as [base s3]. cbn [fst] in Hbase.
  destruct (Strtoul.starts_with_digit base s3); [|cbn; lia].
  pose proof (scan_digits_nonneg base (Strtoul.ULONG_MAX env) s3 0 false
                Hbase ltac:(lia)) as Hv.
  destruct (Strtoul.scan_digits base (Strtoul.ULONG_MAX env) s3 0 false)
    as [[v ovf] rest]. cbn [fst] in *.
  pose proof (ULONG_MAX_large env Hw).
  destruct ovf; [lia|].
  destruct neg; [|exact Hv].
  apply Z.mod_pos_bound. apply Z.pow_pos_nonneg; lia.
Qed.

(** X18: a vendor id that [-i] accepts is exactly the number [strtoul]
    read from the whole of the value: the conversion to [unsigned short]
    never drops a bit, and the id lies between 0 and 65535. *)
Theorem accepted_vendor_id_is_the_value_read :
  forall env st st',
    32 <= ulong_bits env ->
    step env st = Next st' ->
    streq (arg 0 st) "-i" = true ->
    Strtoul.strtoul env (arg 1 st) = (vendor_id st', EmptyString)
    /\ 0 <= vendor_id st' < 2 ^ 16.
Proof.
  intros env st st' Hw H Hi.
  pose proof (strtoul_nonneg env (arg 1 st) Hw) as Hn.
  step_cases H;
    try match goal with
    | E : streq (arg 0 st) "-s" = true |- _ =>
        apply String.eqb_eq in E, Hi; congruence
    end;
    try congruence.
  cbn [fst] in Hn.
  match goal with
  | E : negb (streq ?e "") || negb (Z.land ?v _ =? 0) = false |- _ =>
      apply orb_false_iff in E as [E1 E2];
      apply negb_false_iff in E1, E2;
      apply String.eqb_eq in E1; subst e;
      rewrite (high_bits_clear v Hn) in E2; apply Z.ltb_lt in E2
  end.
  cbn [vendor_id skip set_argv set_vendor_id].
  change (Z.pow_pos 2 16) with 65536. change (2 ^ 16) with 65536.
  rewrite Z.mod_small by lia.
  split; [reflexivity|lia].
Qed.

Lemma accepted_vendor_id_witness :
  Strtoul.strtoul plain_env " +0X1f" = (31, EmptyString)
  /\ 0 <= 31 < 2 ^ 16.
Proof.
  exact (accepted_vendor_id_is_the_value_read plain_env
           (mkState ["-i"; " +0X1f"; "reboot"] None 0 77 [])
           (mkState ["reboot"] None 31 77 [])
           ltac:(vm_compute; discriminate) eq_refl eq_refl).
Defined.

Lemma octal_digit_is_no_x : forall c,
  Strtoul.is_digit 8 c = true -> is_x c = false.
Proof.
  intros c. destruct c as [[] [] [] [] [] [] [] []]; vm_compute;
    intros H; try reflexivity; discriminate H.
Qed.

(** X19: a value of [-i] that begins with 0 and goes on with octal
    digits is read in base 8: it is accepted exactly when its octal value
    fits in 16 bits, and that value becomes the vendor id. *)
Theorem leading_zero_is_octal :
  forall env st t rest,
    32 <= ulong_bits env ->
    argv st = "-i" :: String "0"%char t :: rest ->
    t <> EmptyString ->
    all_digits 8 t = true ->
    step env st
    = if digits_value 8 t 0 <? 65536
      then Next (mkState rest (serial st) (digits_value 8 t 0) (sz st)
                   (queue st))
      else Halt (Died ("invalid vendor id '" ++ String "0"%char t ++ "'")).
Proof.
  intros env st t rest Hw Ha Hne Hall.
  rewrite (step_vendor_option env st _ rest Ha).
  assert (Hb : Strtoul.read_base (String "0" t) = (8, String "0"%char t)).
  { unfold Strtoul.read_base. cbn [Ascii.eqb Bool.eqb].
    destruct t as [|x [|h u]]; try reflexivity.
    cbn [all_digits] in Hall. apply andb_prop in Hall as [Hx _].
    apply octal_digit_is_no_x in Hx. unfold is_x in Hx. now rewrite Hx. }
  destruct (strtoul_digits env Hw "0" t 8 (String "0" t))
    as (val & Hs & H0 & Hfit & Hval);
    try reflexivity; try lia; try exact Hb; try discriminate.
  { cbn [all_digits]. now rewrite Hall. }
  change (digits_value 8 (String "0" t) 0) with (digits_value 8 t 0) in *.
  rewrite Hs. cbn [streq String.eqb negb orb].
  rewrite (high_bits_clear val H0), Hfit.
  destruct (digits_value 8 t 0 <? 65536) eqn:E; cbn [negb]; [|reflexivity].
  apply Z.ltb_lt in E. rewrite (Hval E).
  pose proof (Hval E) as Hv. rewrite Hv in H0.
  change (2 ^ 16) with 65536. now rewrite Z.mod_small by lia.
Qed.

Lemma leading_zero_witness :
  step plain_env (mkState ["-i"; "010"; "reboot"] None 0 77 [])
  = Next (mkState ["reboot"] None 8 77 []).
Proof.
  exact (leading_zero_is_octal plain_env
           (mkState ["-i"; "010"; "reboot"] None 0 77 []) "10" ["reboot"]
           ltac:(vm_compute; discriminate) eq_refl ltac:(discriminate)
           eq_refl).
Defined.

End BranchProperties.

(** ** Device matching *)

Section UsbProperties.
Import CStr Usb.

(** X20: [match_fastboot] returns 0 or -1, and 0 exactly for an
    interface of class 0xff, subclass 0x42 and protocol 3 whose vendor is
    Lab126's 0x1949 or the non-zero vendor id of [-i], and whose serial
    number is the one of [-s] when a serial filter is set. *)
Theorem match_fastboot_accepts : forall serial vendor_id info,
  (match_fastboot serial vendor_id info = 0
   \/ match_fastboot serial vendor_id info = -1)
  /\ (match_fastboot serial vendor_id info = 0 <->
      (dev_vendor info = 0x1949
       \/ (vendor_id <> 0 /\ dev_vendor info = vendor_id))
      /\ ifc_class info = 0xff
      /\ ifc_subclass info = 0x42
      /\ ifc_protocol info = 0x03
      /\ (serial = None \/ serial = Some (serial_number info))).
Proof.
  intros serial vendor_id info. unfold match_fastboot.
  destruct (vendor_id =? 0) eqn:Ev;
  destruct (dev_vendor info =? vendor_id) eqn:Ed;
  destruct (dev_vendor info =? 0x1949) eqn:El;
  destruct (ifc_class info =? 0xff) eqn:Ec;
  destruct (ifc_subclass info =? 0x42) eqn:Es;
  destruct (ifc_protocol info =? 0x03) eqn:Ep;
  cbn [negb andb];
  repeat match goal with
  | E : (_ =? _) = true |- _ => apply Z.eqb_eq in E
  | E : (_ =? _) = false |- _ => apply Z.eqb_neq in E
  end;
  try (split; [now right|split; [discriminate|intros H; exfalso; lia]]);
  (destruct serial as [s|];
   [ destruct (streq s (serial_number info)) eqn:Eq; cbn [negb];
     [ apply String.eqb_eq in Eq; subst s;
       split; [now left|split; [intros _|reflexivity]];
       repeat split; try assumption; try (now right); try lia;
       first [left; assumption | right; split; congruence]
     | apply String.eqb_neq in Eq;
       split; [now right|split; [discriminate|]];
       intros (_ & _ & _ & _ & [H|H]); [discriminate|];
       inversion H; congruence ]
   | split; [now left|split; [intros _|reflexivity]];
     repeat split; try assumption; try (now left); try lia;
     first [left; assumption | right; split; congruence] ]).
Qed.

(** X21: the filters only move in one direction: an interface matched
    with no vendor id set is matched with any vendor id of [-i], and an
    interface matched under a serial filter is matched without one. So
    [-i] never hides a Lab126 device and [-s] never adds one. *)
Theorem filters_are_monotone : forall serial vendor_id info,
  (match_fastboot serial 0 info = 0 ->
     match_fastboot serial vendor_id info = 0)
  /\ (match_fastboot serial vendor_id info = 0 ->
        match_fastboot None vendor_id info = 0).
Proof.
  intros serial vendor_id info. unfold match_fastboot.
  cbn [Z.eqb negb andb].
  destruct (dev_vendor info =? 0x1949);
  destruct (negb (vendor_id =? 0) && (dev_vendor info =? vendor_id));
  cbn [negb andb];
  destruct (ifc_class info =? 0xff);
  destruct (ifc_subclass info =? 0x42);
  destruct (ifc_protocol info =? 0x03);
  cbn [negb]; split; intros H; try discriminate H; try reflexivity;
  exact H.
Qed.

(** X22: [list_devices_callback] always returns -1, so that the device
    enumeration goes on and opens nothing. It prints a line exactly for an
    interface that matches; the name on the line is never empty: it is
    "no permissions" for an interface that is not writable, the serial
    number when that is not empty, and question marks otherwise. *)
Theorem list_devices_callback_line : forall serial vendor_id info,
  snd (list_devices_callback serial vendor_id info) = -1
  /\ (fst (list_devices_callback serial vendor_id info) = None <->
      match_fastboot serial vendor_id info <> 0)
  /\ (forall line,
        fst (list_devices_callback serial vendor_id info) = Some line ->
        exists name,
          line = (name ++ String TAB "fastboot" ++ nl)%string
          /\ name <> EmptyString
          /\ (writable info = 0 -> name = "no permissions")
          /\ (writable info <> 0 -> serial_number info <> EmptyString ->
              name = serial_number info)).
Proof.
  intros serial vendor_id info. unfold list_devices_callback.
  destruct (match_fastboot serial vendor_id info =? 0) eqn:Em.
  - apply Z.eqb_eq in Em. cbn [fst snd].
    split; [reflexivity|]. split.
    + split; [discriminate|congruence].
    + intros line H. inversion H; subst line. clear H.
      destruct (writable info =? 0) eqn:Ew.
      * apply Z.eqb_eq in Ew. exists "no permissions".
        repeat split; try discriminate. congruence.
      * apply Z.eqb_neq in Ew.
        destruct (serial_number info) as [|c t] eqn:Es.
        -- exists "????????????". repeat split; try discriminate;
             congruence.
        -- exists (String c t). repeat split; try discriminate; congruence.
  - apply Z.eqb_neq in Em. cbn [fst snd].
    split; [reflexivity|]. split; [now split|]. discriminate.
Qed.

End UsbProperties.
